(** * Visitor log: record lifecycle, query layer, export and form validation

    A shallow embedding of [src/App.tsx], [src/components/Visitor/Table.tsx]
    and [src/components/Visitor/Modals/AddVisitor.tsx].

    Conventions of the embedding.
    - A JavaScript [Date] is its time value, an integer number of
      milliseconds ([Z]); [new Date(d).getTime()] is [d] itself.
    - Text is a [string] of 8-bit units; [toLowerCase] and [trim] as
      written below are the runtime's on text of the Latin-1 range.  What
      is proved about the name filter itself is proved for the runtime's
      lower-casing as a parameter, whatever it does to text beyond; the one
      example beyond that range is written in UTF-8, in which a text occurs
      in another exactly when it does so in UTF-16.
    - The IndexedDB object store, the clock, React state and the console are
      components of one explicit [World]; the [async] handlers are programs
      of a small state-and-exception monad over it.  A handler is run from
      the render it is started on to its completion; handlers that overlap
      at their [await]s are not modelled, and every property below is of
      one run of a handler, or of a run started after another has
      completed. *)

From Stdlib Require Import ZArith NArith List String Ascii Bool Lia.
From Stdlib Require Import Sorting.Sorted Sorting.Permutation.
From stdpp Require Import base option gmap sorting.
Import ListNotations.

Local Open Scope string_scope.
Local Open Scope Z_scope.

(** ** Text primitives of the runtime *)

Module Text.

(** Upper-case letters of the Latin-1 range: A-Z, and U+00C0-U+00DE
    without the multiplication sign U+00D7. *)
Definition isUpper (c : ascii) : bool :=
  let n := N_of_ascii c in
  ((65 <=? n) && (n <=? 90) || (192 <=? n) && (n <=? 222) && negb (n =? 215))%N.

Definition lowerChar (c : ascii) : ascii :=
  if isUpper c then ascii_of_N (N_of_ascii c + 32) else c.

(** [String.prototype.toLowerCase] on text of the Latin-1 range, where it
    works letter by letter (beyond that range it does not). *)
Fixpoint toLowerCase (s : string) : string :=
  match s with
  | EmptyString => EmptyString
  | String c s' => String (lowerChar c) (toLowerCase s')
  end.

(** [s.startsWith(q)], the test [includes] makes at each position. *)
Fixpoint startsWith (s q : string) {struct q} : bool :=
  match q, s with
  | EmptyString, _ => true
  | String _ _, EmptyString => false
  | String b q', String a s' => Ascii.eqb a b && startsWith s' q'
  end.

(** [String.prototype.includes]: [q] occurs in [s] at some position. *)
Fixpoint includes (s q : string) : bool :=
  startsWith s q ||
  match s with
  | EmptyString => false
  | String _ s' => includes s' q
  end.

(** White space of [trim] in the Latin-1 range: TAB, LF, VT, FF, CR,
    SPACE and NBSP. *)
Definition isSpace (c : ascii) : bool :=
  let n := N_of_ascii c in
  ((9 <=? n) && (n <=? 13) || (n =? 32) || (n =? 160))%N.

Fixpoint trimStart (s : string) : string :=
  match s with
  | EmptyString => EmptyString
  | String c s' => if isSpace c then trimStart s' else s
  end.

(** Drops trailing white space: a character is kept when it is not white
    space or when something is kept after it. *)
Fixpoint trimEnd (s : string) : string :=
  match s with
  | EmptyString => EmptyString
  | String c s' =>
      match trimEnd s' with
      | EmptyString => if isSpace c then EmptyString else String c EmptyString
      | t => String c t
      end
  end.

(** [String.prototype.trim]. *)
Definition trim (s : string) : string := trimEnd (trimStart s).

(** JavaScript truthiness of a string: non-empty. *)
Definition truthy (s : string) : bool :=
  match s with EmptyString => false | String _ _ => true end.

Definition isDigit (c : ascii) : bool :=
  let n := N_of_ascii c in ((48 <=? n) && (n <=? 57))%N.

(** The test [/^\d*$/.test(value)]: every character is a decimal digit. *)
Fixpoint allDigits (s : string) : bool :=
  match s with
  | EmptyString => true
  | String c s' => isDigit c && allDigits s'
  end.

End Text.

(** ** Data model ([interface Visitor], App.tsx) *)

Record Visitor : Type := mkVisitor {
  id : option Z;            (* id?: number *)
  name : string;
  purpose : string;
  contact : string;
  checkInTime : Z;          (* Date *)
  checkOutTime : option Z;  (* Date | null *)
}.

(** ** Query layer ([filteredVisitors], App.tsx) *)

Module Query.

(** [Array.prototype.sort(cmp)] on an array holding [l]: the runtime's sort
    is stable, and for a consistent comparator the stable sorted
    arrangement is unique; it is computed here by stable insertion.  An
    element moves behind a later one only when the comparator is strictly
    positive. *)
Fixpoint insertBy {A} (cmp : A -> A -> Z) (x : A) (l : list A) : list A :=
  match l with
  | [] => [x]
  | y :: l' => if 0 <? cmp x y then y :: insertBy cmp x l' else x :: l
  end.

Definition sortBy {A} (cmp : A -> A -> Z) (l : list A) : list A :=
  fold_right (insertBy cmp) [] l.

(** The comparator passed to [sort]. *)
Definition compareVisitors (sortOrder : string) (a b : Visitor) : Z :=
  if String.eqb sortOrder "latest" then checkInTime b - checkInTime a
  else if String.eqb sortOrder "oldest" then checkInTime a - checkInTime b
  else 0.

(** The callback passed to [filter], for a given lower-casing.  The
    runtime's [String.prototype.toLowerCase] follows Unicode's case tables
    and looks at the letters around (a capital sigma that ends a word
    becomes a final sigma), so it is taken as a parameter. *)
Definition matchesQueryWith (toLowerCase : string -> string)
    (searchQuery : string) (visitor : Visitor) : bool :=
  Text.includes (toLowerCase (name visitor)) (toLowerCase searchQuery).

Definition filteredVisitorsWith (toLowerCase : string -> string)
    (visitors : list Visitor) (searchQuery sortOrder : string) : list Visitor :=
  sortBy (compareVisitors sortOrder)
         (List.filter (matchesQueryWith toLowerCase searchQuery) visitors).

(** The same on text of the Latin-1 range. *)
Definition matchesQuery (searchQuery : string) (visitor : Visitor) : bool :=
  matchesQueryWith Text.toLowerCase searchQuery visitor.

Definition filteredVisitors
    (visitors : list Visitor) (searchQuery sortOrder : string) : list Visitor :=
  filteredVisitorsWith Text.toLowerCase visitors searchQuery sortOrder.

End Query.

(** ** The check-in form ([VisitorModal], AddVisitor.tsx) *)

Module AddVisitor.

(** The shape of both [visitorData] and [errors]. *)
Record Fields : Type := mkFields {
  name : string;
  purpose : string;
  contact : string;
}.

Definition purposes : list string :=
  ["Meeting"; "Delivery"; "Interview"; "Maintenance"; "Other"].

(** The two pieces of component state. *)
Record State : Type := mkState {
  visitorData : Fields;
  errors : Fields;
}.

Definition blank : Fields := mkFields "" "" "".

(** [useState] initial values. *)
Definition initial : State := mkState blank blank.

(** [obj[key]] for the [name] attribute of the three controls. *)
Definition getField (obj : Fields) (key : string) : string :=
  if String.eqb key "name" then name obj
  else if String.eqb key "purpose" then purpose obj
  else if String.eqb key "contact" then contact obj
  else "".

(** [{ ...obj, [key]: value }]; a key other than the three fields would
    add a property that nothing reads. *)
Definition setField (obj : Fields) (key value : string) : Fields :=
  if String.eqb key "name" then mkFields value (purpose obj) (contact obj)
  else if String.eqb key "purpose" then mkFields (name obj) value (contact obj)
  else if String.eqb key "contact" then mkFields (name obj) (purpose obj) value
  else obj.

(** [handleChange]: [key] and [value] are [e.target.name] and
    [e.target.value]. *)
Definition handleChange (s : State) (key value : string) : State :=
  if String.eqb key "contact" && negb (Text.allDigits value) then s
  else
    mkState (setField (visitorData s) key value)
            (if Text.truthy (getField (errors s) key)
             then setField (errors s) key ""
             else errors s).

(** [validateForm]: the returned flag and the state after [setErrors]. *)
Definition validateForm (s : State) : bool * State :=
  let isValid := true in
  let newErrors := errors s in
  let '(newErrors, isValid) :=
    if negb (Text.truthy (Text.trim (name (visitorData s))))
    then (setField newErrors "name" "Name is required", false)
    else (newErrors, isValid) in
  let '(newErrors, isValid) :=
    if negb (Text.truthy (purpose (visitorData s)))
    then (setField newErrors "purpose" "Purpose is required", false)
    else (newErrors, isValid) in
  let '(newErrors, isValid) :=
    if negb (Text.truthy (Text.trim (contact (visitorData s))))
    then (setField newErrors "contact" "Contact information is required", false)
    else (newErrors, isValid) in
  (isValid, mkState (visitorData s) newErrors).

(** [handleSubmit], with the effect of [onSubmit] on the rest of the
    program ([W]) passed explicitly: the callback runs only when the form
    validates, and the fields are then cleared. *)
Definition handleSubmit {W : Type} (onSubmit : Fields -> W -> W)
    (s : State) (w : W) : State * W :=
  let '(isValid, s') := validateForm s in
  if isValid
  then (mkState blank (errors s'), onSubmit (visitorData s) w)
  else (s', w).

(** A sequence of change events delivered to [handleChange]. *)
Definition changes (s : State) (events : list (string * string)) : State :=
  fold_left (fun s ev => handleChange s (fst ev) (snd ev)) events s.

(** What the rendered controls can emit: the purpose control is a
    [select] whose enabled options are exactly [purposes]. *)
Definition fromControls (ev : string * string) : Prop :=
  fst ev = "purpose" -> In (snd ev) purposes.

End AddVisitor.

(** ** The environment of the handlers *)

(** What a handler does to its environment, in the order it happens. *)
Inductive Effect : Type :=
| DbOpen                                  (* openDB resolved *)
| DbAdd (key : Z)                         (* db.add resolved with key *)
| DbGet (key : Z)                         (* db.get resolved *)
| DbPut (key : Z)                         (* db.put resolved with key *)
| DbGetAll                                (* db.getAll resolved *)
| DbClear                                 (* db.clear resolved *)
| DbRejected                              (* a database promise rejected *)
| SetVisitors (visitors : list Visitor)
| SetIsLoading (b : bool)
| SetIsModalOpen (b : bool)
| ConsoleLog (msg : string)
| ConsoleError (msg : string).

Record World : Type := mkWorld {
  (* the object store "visitors": keyPath "id", autoIncrement *)
  objects : gmap Z Visitor;
  keyGenerator : Z;
  (* for each coming database promise, whether it rejects; none rejects
     once the list is used up *)
  rejections : list bool;
  (* the time value [new Date()] reads *)
  now : Z;
  (* React state of [App] *)
  visitors : list Visitor;
  isLoading : bool;
  isModalOpen : bool;
  searchQuery : string;
  sortOrder : string;
  (* everything done so far, oldest first *)
  trace : list Effect;
}.

Module Run.

Definition withStore (o : gmap Z Visitor) (g : Z) (w : World) : World :=
  mkWorld o g (rejections w) (now w) (visitors w) (isLoading w)
          (isModalOpen w) (searchQuery w) (sortOrder w) (trace w).

Definition withRejections (r : list bool) (w : World) : World :=
  mkWorld (objects w) (keyGenerator w) r (now w) (visitors w) (isLoading w)
          (isModalOpen w) (searchQuery w) (sortOrder w) (trace w).

Definition withNow (t : Z) (w : World) : World :=
  mkWorld (objects w) (keyGenerator w) (rejections w) t (visitors w) (isLoading w)
          (isModalOpen w) (searchQuery w) (sortOrder w) (trace w).

Definition withVisitors (vs : list Visitor) (w : World) : World :=
  mkWorld (objects w) (keyGenerator w) (rejections w) (now w) vs (isLoading w)
          (isModalOpen w) (searchQuery w) (sortOrder w) (trace w).

Definition withIsLoading (b : bool) (w : World) : World :=
  mkWorld (objects w) (keyGenerator w) (rejections w) (now w) (visitors w) b
          (isModalOpen w) (searchQuery w) (sortOrder w) (trace w).

Definition withIsModalOpen (b : bool) (w : World) : World :=
  mkWorld (objects w) (keyGenerator w) (rejections w) (now w) (visitors w)
          (isLoading w) b (searchQuery w) (sortOrder w) (trace w).

Definition withSearchQuery (q : string) (w : World) : World :=
  mkWorld (objects w) (keyGenerator w) (rejections w) (now w) (visitors w)
          (isLoading w) (isModalOpen w) q (sortOrder w) (trace w).

Definition withSortOrder (o : string) (w : World) : World :=
  mkWorld (objects w) (keyGenerator w) (rejections w) (now w) (visitors w)
          (isLoading w) (isModalOpen w) (searchQuery w) o (trace w).

Definition record (e : Effect) (w : World) : World :=
  mkWorld (objects w) (keyGenerator w) (rejections w) (now w) (visitors w)
          (isLoading w) (isModalOpen w) (searchQuery w) (sortOrder w)
          (trace w ++ [e]).

(** How an awaited computation ends. *)
Inductive Completion (A : Type) : Type :=
| Normal (a : A)
| Throw (error : string).
Arguments Normal {A} a.
Arguments Throw {A} error.

(** An [async] body run to its end. *)
Definition Async (A : Type) : Type := World -> Completion A * World.

Definition ret {A} (a : A) : Async A := fun w => (Normal a, w).

Definition bind {A B} (m : Async A) (k : A -> Async B) : Async B :=
  fun w =>
    match m w with
    | (Normal a, w') => k a w'
    | (Throw e, w') => (Throw e, w')
    end.

(** [try { body } catch (error) { handler }]. *)
Definition tryCatch {A} (body : Async A) (handler : string -> Async A) : Async A :=
  fun w =>
    match body w with
    | (Normal a, w') => (Normal a, w')
    | (Throw e, w') => handler e w'
    end.

Definition effect (f : World -> World) : Async unit := fun w => (Normal tt, f w).

Definition read {A} (f : World -> A) : Async A := fun w => (Normal (f w), w).

End Run.

Declare Scope async_scope.
Delimit Scope async_scope with async.
Notation "x <- m ;; k" := (Run.bind m (fun x => k))
  (at level 100, m at next level, right associativity) : async_scope.
Notation "m ;; k" := (Run.bind m (fun _ => k))
  (at level 100, right associativity) : async_scope.

(** ** The [idb] calls the handlers make

    The object store follows IndexedDB: values are kept under an integer
    key that is also their [id] property (keyPath "id"); a value without
    [id] gets the next key of the generator (autoIncrement), which starts at
    1 and never moves back, not even on [clear]. *)

Module Db.
Import Run.
Local Open Scope async_scope.

(** An awaited database promise: it rejects when the environment says so,
    and otherwise settles as [run] does. *)
Definition request {A} (run : Async A) : Async A :=
  fun w =>
    match rejections w with
    | true :: r => (Throw "DOMException", record DbRejected (withRejections r w))
    | false :: r => run (withRejections r w)
    | [] => run w
    end.

(** [openDB("visitor-management-system", 1)]. *)
Definition openDB : Async unit :=
  request (effect (record DbOpen)).

(** The key under which a value is stored: its [id] when it has one
    (the key generator then moves past it), a generated key otherwise. *)
Definition keyFor (value : Visitor) (w : World) : Z :=
  match id value with Some k => k | None => keyGenerator w end.

Definition storeValue (value : Visitor) (w : World) : World :=
  let key := keyFor value w in
  let stored :=
    mkVisitor (Some key) (name value) (purpose value) (contact value)
              (checkInTime value) (checkOutTime value) in
  withStore (<[key := stored]> (objects w)) (Z.max (keyGenerator w) (key + 1)) w.

(** [db.add("visitors", value)]: rejects on a key that is already used. *)
Definition add (value : Visitor) : Async Z :=
  request (fun w =>
    let key := keyFor value w in
    match id value, objects w !! key with
    | Some _, Some _ => (Throw "ConstraintError", record DbRejected w)
    | _, _ => (Normal key, record (DbAdd key) (storeValue value w))
    end).

(** [db.put("visitors", value)]: inserts or replaces. *)
Definition put (value : Visitor) : Async Z :=
  request (fun w =>
    let key := keyFor value w in
    (Normal key, record (DbPut key) (storeValue value w))).

(** The value stored under [key]; its [id] property is the key. *)
Definition stored (w : World) (key : Z) : option Visitor :=
  match objects w !! key with
  | Some v => Some (mkVisitor (Some key) (name v) (purpose v) (contact v)
                              (checkInTime v) (checkOutTime v))
  | None => None
  end.

(** [db.get("visitors", key)]: [None] is [undefined]. *)
Definition get (key : Z) : Async (option Visitor) :=
  request (fun w => (Normal (stored w key), record (DbGet key) w)).

(** The order of the keys. *)
Definition byKey (a b : Z * Visitor) : Z := fst a - fst b.

(** [db.getAll("visitors")]: every stored value, by ascending key. *)
Definition listAll (w : World) : list Visitor :=
  omap (fun kv => stored w (fst kv))
       (Query.sortBy byKey (map_to_list (objects w))).

Definition getAll : Async (list Visitor) :=
  request (fun w => (Normal (listAll w), record DbGetAll w)).

(** [db.clear("visitors")]: deletes every value; the key generator keeps
    its position. *)
Definition clear : Async unit :=
  request (effect (fun w => record DbClear (withStore ∅ (keyGenerator w) w))).

End Db.

(** ** The handlers of [App] (App.tsx)

    A handler closes over the [visitors] of the render that created it:
    that value is read from the state when the handler is started, and the
    handler is then run to its completion. *)

Module App.
Import Run.
Local Open Scope async_scope.

Definition setVisitors (vs : list Visitor) : Async unit :=
  effect (fun w => record (SetVisitors vs) (withVisitors vs w)).

Definition setIsLoading (b : bool) : Async unit :=
  effect (fun w => record (SetIsLoading b) (withIsLoading b w)).

Definition setIsModalOpen (b : bool) : Async unit :=
  effect (fun w => record (SetIsModalOpen b) (withIsModalOpen b w)).

Definition consoleLog (msg : string) : Async unit :=
  effect (record (ConsoleLog msg)).

Definition consoleError (msg : string) : Async unit :=
  effect (record (ConsoleError msg)).

(** [new Date()]. *)
Definition newDate : Async Z := read now.

(** [initDB], the effect run once on mount. *)
Definition initDB : Async unit :=
  tryCatch
    (Db.openDB ;;
     storedVisitors <- Db.getAll ;;
     setVisitors storedVisitors ;;
     setIsLoading false)
    (fun error =>
       consoleError "Failed to initialize database:" ;;
       setIsLoading false).

Definition resetDatabase : Async unit :=
  tryCatch
    (Db.openDB ;;
     Db.clear ;;
     setVisitors [] ;;
     consoleLog "Database reset successfully.")
    (fun error => consoleError "Failed to reset database:").

Definition addVisitor (visitor : AddVisitor.Fields) : Async unit :=
  visitors <- read visitors ;;
  tryCatch
    (Db.openDB ;;
     checkInTime <- newDate ;;
     let newVisitor :=
       mkVisitor None (AddVisitor.name visitor) (AddVisitor.purpose visitor)
                 (AddVisitor.contact visitor) checkInTime None in
     id <- Db.add newVisitor ;;
     addedVisitor <- Db.get id ;;
     match addedVisitor with
     | Some addedVisitor =>
         setVisitors (visitors ++ [addedVisitor])%list ;;
         setIsModalOpen false
     | None => ret tt
     end)
    (fun error => consoleError "Failed to add visitor:").

(** [v.id === id]. *)
Definition hasId (id0 : Z) (v : Visitor) : bool :=
  match id v with Some i => i =? id0 | None => false end.

Definition checkOutVisitor (id0 : Z) : Async unit :=
  visitors <- read visitors ;;
  tryCatch
    (Db.openDB ;;
     visitor <- Db.get id0 ;;
     match visitor with
     | Some visitor =>
         checkOutTime <- newDate ;;
         let updatedVisitor :=
           mkVisitor (id visitor) (name visitor) (purpose visitor)
                     (contact visitor) (checkInTime visitor) (Some checkOutTime) in
         Db.put updatedVisitor ;;
         setVisitors (map (fun v => if hasId id0 v then updatedVisitor else v) visitors)
     | None => ret tt
     end)
    (fun error => consoleError "Failed to check out visitor:").

(** The view handed to the table. *)
Definition filteredVisitors (w : World) : list Visitor :=
  Query.filteredVisitors (visitors w) (searchQuery w) (sortOrder w).

(** The form's [onSubmit] is [addVisitor]. *)
Definition onSubmit (visitor : AddVisitor.Fields) (w : World) : World :=
  snd (addVisitor visitor w).

End App.

(** ** PDF export ([exportAsPDF], App.tsx) *)

Module Pdf.

(** What is handed to the PDF library. *)
Record Document : Type := mkDocument {
  title : string;              (* doc.text(...) *)
  head : list (list string);   (* autoTable head *)
  body : list (list string);   (* autoTable body *)
  fileName : string;           (* doc.save(...) *)
}.

Definition tableColumn : list string :=
  ["Name"; "Purpose"; "Contact"; "Check-In"; "Check-Out"].

Section WithLocale.
(** [Date.prototype.toLocaleString], which depends on the host locale. *)
Variable toLocaleString : Z -> string.

Definition row (visitor : Visitor) : list string :=
  [ name visitor;
    purpose visitor;
    contact visitor;
    toLocaleString (checkInTime visitor);
    match checkOutTime visitor with
    | Some t => toLocaleString t
    | None => "N/A"
    end ].

(** The [forEach] loop pushing one row per visitor. *)
Definition tableRows (visitors : list Visitor) : list (list string) :=
  fold_left (fun rows visitor => (rows ++ [row visitor])%list) visitors [].

Definition exportAsPDF (w : World) : Document :=
  mkDocument "Visitor List" [tableColumn] (tableRows (visitors w))
             "visitor-list.pdf".
End WithLocale.

End Pdf.

(** ** The action column of the table (Table.tsx) *)

Module Table.
Import Run.

Inductive Action : Type :=
| CheckedOut                           (* the "Checked Out" label *)
| CheckOutButton (visitor : Visitor).  (* the "Check Out" button *)

Definition action (visitor : Visitor) : Action :=
  match checkOutTime visitor with
  | Some _ => CheckedOut
  | None => CheckOutButton visitor
  end.

(** [onClick]: [visitor.id && onCheckOut(visitor.id)]. *)
Definition onClick (onCheckOut : Z -> Async unit) (visitor : Visitor) : Async unit :=
  match id visitor with
  | Some i => if i =? 0 then ret tt else onCheckOut i
  | None => ret tt
  end.

(** A click in the action cell of a row. *)
Definition click (onCheckOut : Z -> Async unit) (visitor : Visitor) : Async unit :=
  match action visitor with
  | CheckedOut => ret tt
  | CheckOutButton v => onClick onCheckOut v
  end.

(** The rows of the table body. *)
Inductive Row : Type :=
| NoVisitors (colSpan : nat) (text : string)   (* the one cell of the empty table *)
| VisitorRow (key : option Z) (cells : list string) (action : Action).

Section Body.
(** [Date.prototype.toLocaleString], which depends on the host locale. *)
Variable toLocaleString : Z -> string.

(** [formatDate]: [None] is [null]. *)
Definition formatDate (date : option Z) : string :=
  match date with
  | None => "-"
  | Some d => toLocaleString d
  end.

(** The five data cells of a row. *)
Definition cells (visitor : Visitor) : list string :=
  [ name visitor;
    purpose visitor;
    contact visitor;
    formatDate (Some (checkInTime visitor));
    formatDate (checkOutTime visitor) ].

(** [tbody]: [visitors.length === 0 ? ... : visitors.map(...)]. *)
Definition tbody (visitors : list Visitor) : list Row :=
  match visitors with
  | [] => [NoVisitors 6 "No visitors registered yet."]
  | _ :: _ =>
      map (fun visitor => VisitorRow (id visitor) (cells visitor) (action visitor))
          visitors
  end.
End Body.

End Table.

(** ** Arrays as mutable objects

    [filter] allocates a new array and [sort] reorders its receiver in
    place, returning the same reference. *)

Module Arrays.

Definition contents (h : gmap positive (list Visitor)) (ref : positive) : list Visitor :=
  default [] (h !! ref).

Definition alloc (a : list Visitor) (h : gmap positive (list Visitor))
  : positive * gmap positive (list Visitor) :=
  let ref := fresh (dom h) in (ref, <[ref := a]> h).

Definition filter (p : Visitor -> bool) (ref : positive)
    (h : gmap positive (list Visitor)) : positive * gmap positive (list Visitor) :=
  alloc (List.filter p (contents h ref)) h.

Definition sort (cmp : Visitor -> Visitor -> Z) (ref : positive)
    (h : gmap positive (list Visitor)) : positive * gmap positive (list Visitor) :=
  (ref, <[ref := Query.sortBy cmp (contents h ref)]> h).

(** [visitors.filter(...).sort(...)] with [visitors] the array at [ref]. *)
Definition filteredVisitors (ref : positive) (searchQuery sortOrder : string)
    (h : gmap positive (list Visitor)) : positive * gmap positive (list Visitor) :=
  let '(filtered, h1) := filter (Query.matchesQuery searchQuery) ref h in
  sort (Query.compareVisitors sortOrder) filtered h1.

End Arrays.

(** ** One event at the rendered components

    What the handler that the event starts does, from the render the event
    happens on to the handler's completion. *)

Module Ui.

Inductive Event : Type :=
| Submit (form : AddVisitor.State)  (* the form is submitted in this state *)
| Click (row : nat)                 (* a click in the action cell of a row *)
| ResetData                         (* the "Reset Data" button *)
| Search (text : string)            (* typing in the search box *)
| Sort (order : string).            (* choosing a sort order *)

Definition handle (w : World) (e : Event) : World :=
  match e with
  | Submit form => snd (AddVisitor.handleSubmit App.onSubmit form w)
  | Click row =>
      match nth_error (App.filteredVisitors w) row with
      | Some visitor => snd (Table.click App.checkOutVisitor visitor w)
      | None => w
      end
  | ResetData => snd (App.resetDatabase w)
  | Search text => Run.withSearchQuery text w
  | Sort order => Run.withSortOrder order w
  end.

End Ui.

(** ** The form in use: changes and submissions, one after another *)

Module FormSession.

Inductive Input : Type :=
| Change (key value : string)   (* a change event of one of the controls *)
| Submit.                       (* the form is submitted *)

(** [onSubmit] as seen from the form: the data handed over, in order. *)
Definition handedOver (visitor : AddVisitor.Fields)
    (sofar : list AddVisitor.Fields) : list AddVisitor.Fields :=
  (sofar ++ [visitor])%list.

Definition step (st : AddVisitor.State * list AddVisitor.Fields) (i : Input)
  : AddVisitor.State * list AddVisitor.Fields :=
  match i with
  | Change key value => (AddVisitor.handleChange (fst st) key value, snd st)
  | Submit => AddVisitor.handleSubmit handedOver (fst st) (snd st)
  end.

Definition run (inputs : list Input) : AddVisitor.State * list AddVisitor.Fields :=
  fold_left step inputs (AddVisitor.initial, []).

End FormSession.

(** ** Vocabulary of the properties *)

Module Spec.

(** The text [q] occurs in the text [s]. *)
Definition occursIn (q s : string) : Prop :=
  exists pre suf : string, s = (pre ++ q ++ suf)%string.

(** Latest check-in first / oldest check-in first. *)
Definition descending (l : list Visitor) : Prop :=
  StronglySorted (fun a b => checkInTime b <= checkInTime a) l.

Definition ascending (l : list Visitor) : Prop :=
  StronglySorted (fun a b => checkInTime a <= checkInTime b) l.

(** The records of [l] checked in at time [t], in the order of [l]. *)
Definition checkedInAt (t : Z) (l : list Visitor) : list Visitor :=
  List.filter (fun v => checkInTime v =? t) l.

(** The records of [visitors] that match the query, in input order. *)
Definition matching (searchQuery : string) (visitors : list Visitor) : list Visitor :=
  List.filter (Query.matchesQuery searchQuery) visitors.

(** None of the next [n] database promises rejects. *)
Fixpoint calm (n : nat) (r : list bool) : bool :=
  match n, r with
  | O, _ => true
  | S _, [] => true
  | S n, b :: r => negb b && calm n r
  end.

(** The record [r] with its check-out time set to [t]. *)
Definition checkedOutAt (t : Z) (r : Visitor) : Visitor :=
  mkVisitor (id r) (name r) (purpose r) (contact r) (checkInTime r) (Some t).

(** Every record held in memory is a stored record, under its own id, and
    every stored record was keyed by the generator. *)
Definition inStep (w : World) : Prop :=
  (forall v, In v (visitors w) ->
     exists k, id v = Some k /\ Db.stored w k = Some v) /\
  (forall k r, Db.stored w k = Some r -> k < keyGenerator w).

(** What [validateForm] lets through and the controls let in. *)
Definition acceptable (visitor : AddVisitor.Fields) : Prop :=
  Text.trim (AddVisitor.name visitor) <> "" /\
  AddVisitor.purpose visitor <> "" /\
  AddVisitor.contact visitor <> "" /\
  Text.allDigits (AddVisitor.contact visitor) = true.

(** An error message is shown only under a field that is blank. *)
Definition errorsOnlyOnBlank (s : AddVisitor.State) : Prop :=
  (AddVisitor.name (AddVisitor.errors s) <> "" ->
     Text.trim (AddVisitor.name (AddVisitor.visitorData s)) = "") /\
  (AddVisitor.purpose (AddVisitor.errors s) <> "" ->
     AddVisitor.purpose (AddVisitor.visitorData s) = "") /\
  (AddVisitor.contact (AddVisitor.errors s) <> "" ->
     AddVisitor.contact (AddVisitor.visitorData s) = "").

(** The record that [addVisitor] creates from the form's data. *)
Definition created (visitor : AddVisitor.Fields) (w : World) : Visitor :=
  mkVisitor (Some (keyGenerator w)) (AddVisitor.name visitor)
            (AddVisitor.purpose visitor) (AddVisitor.contact visitor) (now w) None.



(** What holds of the form and of the data it has handed over. *)
Definition formInvariant (st : AddVisitor.State * list AddVisitor.Fields) : Prop :=
  Text.allDigits (AddVisitor.contact (AddVisitor.visitorData (fst st))) = true /\
  errorsOnlyOnBlank (fst st) /\
  Forall acceptable (snd st).

End Spec.

(** ** Sample data *)

Module Sample.

Definition jane : AddVisitor.Fields :=
  AddVisitor.mkFields "Jane Doe" "Interview" "5551234".

(** A first visit: nothing stored, nothing shown, the clock at 100. *)
Definition fresh : World :=
  mkWorld ∅ 1 [] 100 [] false true "" "latest" [].

Definition janeIn : Visitor :=
  mkVisitor (Some 1) "Jane Doe" "Interview" "5551234" 100 None.

Definition janeOut : Visitor :=
  mkVisitor (Some 1) "Jane Doe" "Interview" "5551234" 100 (Some 250).

Definition bob : Visitor :=
  mkVisitor (Some 2) "Bob" "Meeting" "42" 180 None.

Definition john : Visitor :=
  mkVisitor (Some 3) "John" "Delivery" "7" 300 None.

(** Jane is checked in; the clock is at 250. *)
Definition janeCheckedIn : World :=
  mkWorld {[ 1 := janeIn ]} 2 [] 250 [janeIn] false false "" "latest" [].

(** Jane was checked out at 250; the clock is at 900. *)
Definition janeCheckedOut : World :=
  mkWorld {[ 1 := janeOut ]} 2 [] 900 [janeOut] false false "" "latest" [].

(** Two records, with the search box holding "bob". *)
Definition searching : World :=
  mkWorld {[ 1 := janeOut; 2 := bob ]} 3 [] 900 [janeOut; bob] false false
          "bob" "latest" [].

(** Jane is checked in at 100; the clock has been set back to 50. *)
Definition clockSetBack : World :=
  mkWorld {[ 1 := janeIn ]} 2 [] 50 [janeIn] false false "" "latest" [].

(** A visitor whose name is a capital A and a capital sigma (written in
    UTF-8, as the other two texts of the example are). *)
Definition sigma : Visitor :=
  mkVisitor (Some 4) "AΣ" "Other" "1" 400 None.


(** A stand-in for the host's date format. *)
Definition someLocale (t : Z) : string :=
  if t <? 200 then "in the morning" else "in the afternoon".

End Sample.

(** ** Proof automation for the handlers *)

(** Unfold a handler down to the monad's operations, then split on whether
    each awaited promise rejects. *)
Ltac unfold_handlers :=
  unfold App.checkOutVisitor, App.addVisitor, App.resetDatabase, App.initDB;
  unfold Db.openDB, Db.get, Db.put, Db.add, Db.clear, Db.getAll,
    App.newDate, App.setVisitors, App.setIsModalOpen, App.setIsLoading,
    App.consoleError, App.consoleLog;
  unfold Db.request, Run.bind, Run.tryCatch, Run.read, Run.ret, Run.effect.

Ltac simpl_world :=
  cbn -[Z.max Spec.calm Db.listAll] in *; rewrite ?lookup_insert_eq;
  cbn -[Z.max Spec.calm Db.listAll] in *.

Ltac split_promises :=
  simpl_world;
  repeat (match goal with
          | |- context [match ?r with [] => _ | _ :: _ => _ end] =>
              is_var r; destruct r as [|[] r]
          end; simpl_world).

Ltac run_handler w :=
  unfold_handlers; unfold Db.stored, Db.storeValue, Db.keyFor;
  destruct w as [objs gen rej t vs loading modal query order tr];
  split_promises.

Ltac finish_run :=
  do 2 eexists; (split; [reflexivity |]); simpl_world;
  rewrite <- ?app_assoc; (split; [reflexivity |]).

Ltac no_such_effect :=
  let H := fresh in
  simpl; intros ? H; repeat (destruct H as [H | H]; [discriminate H |]); exact H.

Ltac in_effects :=
  simpl; repeat split; intros;
  repeat match goal with
         | H : _ \/ _ |- _ => destruct H as [H | H]
         | H : False |- _ => destruct H
         | H : @eq Effect _ _ |- _ => discriminate H
         end; tauto.

(** * Properties *)

(** ** Text *)

Section TextFacts.
Import Text.

Lemma startsWith_spec q : forall s,
  startsWith s q = true <-> exists suf, s = (q ++ suf)%string.
Proof.
  induction q as [|b q IH]; intros s; simpl.
  - split; [intros _; now exists s | reflexivity].
  - destruct s as [|a s]; simpl.
    + split; [discriminate | intros [suf H]; discriminate].
    + rewrite andb_true_iff, Ascii.eqb_eq, IH. split.
      * intros [-> [suf ->]]. now exists suf.
      * intros [suf H]. injection H as -> ->. split; [reflexivity | now exists suf].
Qed.

Lemma includes_spec q : forall s,
  includes s q = true <-> exists pre suf, s = (pre ++ q ++ suf)%string.
Proof.
  induction s as [|a s IH].
  - cbn [includes]. rewrite orb_false_r, startsWith_spec. split.
    + intros [suf H]. now exists ""%string, suf.
    + intros [pre [suf H]]. destruct pre; [now exists suf | discriminate].
  - cbn [includes]. rewrite orb_true_iff, startsWith_spec, IH. split.
    + intros [[suf H] | [pre [suf H]]].
      * now exists ""%string, suf.
      * exists (String a pre), suf. simpl. now rewrite H.
    + intros [pre [suf H]]. destruct pre as [|c pre]; simpl in H.
      * left. now exists suf.
      * right. injection H as _ H. now exists pre, suf.
Qed.

Lemma includes_occurs s q : includes s q = true <-> Spec.occursIn q s.
Proof. apply includes_spec. Qed.

Lemma append_assoc (a b c : string) :
  ((a ++ b) ++ c)%string = (a ++ b ++ c)%string.
Proof.
  induction a as [|x a IH]; [reflexivity |].
  change (String x ((a ++ b) ++ c) = String x (a ++ b ++ c))%string.
  now rewrite IH.
Qed.

Lemma occursIn_trans q1 q2 s :
  Spec.occursIn q1 q2 -> Spec.occursIn q2 s -> Spec.occursIn q1 s.
Proof.
  intros (c & d & ->) (a & b & ->).
  exists (a ++ c)%string, (d ++ b)%string. now rewrite !append_assoc.
Qed.

Lemma includes_empty s : includes s "" = true.
Proof. destruct s; reflexivity. Qed.

End TextFacts.

(** ** The stable sort *)

Section SortFacts.
Import Query.
Context {A : Type} (cmp : A -> A -> Z).

Lemma insertBy_perm x l : Permutation (insertBy cmp x l) (x :: l).
Proof.
  induction l as [|y l IH]; simpl; [reflexivity |].
  destruct (0 <? cmp x y); [| reflexivity].
  rewrite IH. apply perm_swap.
Qed.

Lemma sortBy_perm l : Permutation (sortBy cmp l) l.
Proof.
  induction l as [|x l IH]; simpl; [reflexivity |].
  rewrite insertBy_perm. now constructor.
Qed.

Lemma sortBy_In l x : In x (sortBy cmp l) <-> In x l.
Proof.
  split; apply Permutation_in;
    [apply sortBy_perm | symmetry; apply sortBy_perm].
Qed.

(** A comparator that never asks for a swap leaves the array as it is. *)
Lemma sortBy_no_swap l :
  (forall x y, cmp x y <= 0) -> sortBy cmp l = l.
Proof.
  intros Hle. induction l as [|x l IH]; simpl; [reflexivity |].
  rewrite IH. destruct l as [|y l]; simpl; [reflexivity |].
  specialize (Hle x y). destruct (Z.ltb_spec 0 (cmp x y)); [lia | reflexivity].
Qed.

Section Ordered.
(** The order the comparator describes. *)
Variable le : A -> A -> Prop.
Hypothesis le_cmp : forall x y, cmp x y <= 0 -> le x y.
Hypothesis le_swap : forall x y, 0 < cmp x y -> le y x.
Hypothesis le_trans : forall x y z, le x y -> le y z -> le x z.

Lemma insertBy_sorted x l :
  StronglySorted le l -> StronglySorted le (insertBy cmp x l).
Proof.
  induction 1 as [|y l Hl IH Hy]; simpl.
  - repeat constructor.
  - destruct (Z.ltb_spec 0 (cmp x y)) as [Hxy | Hxy].
    + constructor; [exact IH |].
      apply List.Forall_forall. intros z Hz.
      apply (Permutation_in _ (insertBy_perm x l)) in Hz as [<- | Hz].
      * now apply le_swap.
      * rewrite List.Forall_forall in Hy. now apply Hy.
    + constructor; [now constructor |].
      constructor; [now apply le_cmp |].
      eapply List.Forall_impl; [| exact Hy]. intros z Hz.
      eapply le_trans; [apply le_cmp, Hxy | exact Hz].
Qed.

Lemma sortBy_sorted l : StronglySorted le (sortBy cmp l).
Proof.
  induction l as [|x l IH]; simpl; [constructor | now apply insertBy_sorted].
Qed.
End Ordered.

Section Stable.
(** Elements that share a key are never swapped. *)
Variable key : A -> Z.
Hypothesis cmp_tie : forall x y, key x = key y -> cmp x y <= 0.

Lemma insertBy_stable t x l :
  List.filter (fun v => key v =? t) (insertBy cmp x l) =
  List.filter (fun v => key v =? t) (x :: l).
Proof.
  induction l as [|y l IH]; [reflexivity |].
  cbn [insertBy]. destruct (Z.ltb_spec 0 (cmp x y)) as [Hxy | Hxy]; [| reflexivity].
  cbn [List.filter] in *. rewrite IH.
  destruct (Z.eqb_spec (key x) t) as [Hx | Hx]; [| reflexivity].
  destruct (Z.eqb_spec (key y) t) as [Hy | Hy]; [| reflexivity].
  specialize (cmp_tie x y). lia.
Qed.

Lemma sortBy_stable t l :
  List.filter (fun v => key v =? t) (sortBy cmp l) =
  List.filter (fun v => key v =? t) l.
Proof.
  induction l as [|x l IH]; [reflexivity |].
  cbn [sortBy fold_right]. fold (sortBy cmp l).
  rewrite insertBy_stable. cbn [List.filter]. now rewrite IH.
Qed.
End Stable.

End SortFacts.

Section ListFacts.
Context {A : Type}.

Lemma StronglySorted_rev_flip (R : A -> A -> Prop) l :
  StronglySorted R l -> StronglySorted (fun a b => R b a) (rev l).
Proof.
  induction 1 as [|x l Hl IH Hx]; simpl; [constructor |].
  apply StronglySorted_app_2; [| exact IH | repeat constructor].
  intros a b Ha Hb. apply list_elem_of_In in Ha, Hb.
  apply In_rev in Ha. destruct Hb as [<- | []].
  rewrite List.Forall_forall in Hx. now apply Hx.
Qed.

Lemma NoDup_map_inj_on (f : A -> Z) l x y :
  NoDup (map f l) -> In x l -> In y l -> f x = f y -> x = y.
Proof.
  induction l as [|a l IH]; simpl; [intros _ [] |].
  intros Hnd Hx Hy Hf. apply NoDup_cons in Hnd as [Ha Hnd].
  destruct Hx as [-> | Hx], Hy as [-> | Hy]; auto.
  - exfalso. apply Ha. rewrite list_elem_of_In, Hf. now apply in_map.
  - exfalso. apply Ha. rewrite list_elem_of_In, <- Hf. now apply in_map.
Qed.

End ListFacts.

(** ** The view: filtering and ordering *)

Section QueryFacts.
Import Query.

Lemma matchingWith_In toLowerCase searchQuery visitors v :
  In v (List.filter (matchesQueryWith toLowerCase searchQuery) visitors) <->
  In v visitors /\
  Spec.occursIn (toLowerCase searchQuery) (toLowerCase (name v)).
Proof.
  rewrite filter_In. unfold matchesQueryWith. now rewrite includes_occurs.
Qed.

Lemma filteredVisitorsWith_perm toLowerCase visitors searchQuery sortOrder :
  Permutation (filteredVisitorsWith toLowerCase visitors searchQuery sortOrder)
              (List.filter (matchesQueryWith toLowerCase searchQuery) visitors).
Proof. apply sortBy_perm. Qed.

Lemma filteredVisitorsWith_In toLowerCase visitors searchQuery sortOrder v :
  In v (filteredVisitorsWith toLowerCase visitors searchQuery sortOrder) <->
  In v visitors /\
  Spec.occursIn (toLowerCase searchQuery) (toLowerCase (name v)).
Proof.
  rewrite <- matchingWith_In.
  split; apply Permutation_in;
    [| symmetry]; apply filteredVisitorsWith_perm.
Qed.

Lemma matching_In searchQuery visitors v :
  In v (Spec.matching searchQuery visitors) <->
  In v visitors /\ matchesQuery searchQuery v = true.
Proof. unfold Spec.matching. apply filter_In. Qed.

Lemma filteredVisitors_perm visitors searchQuery sortOrder :
  Permutation (filteredVisitors visitors searchQuery sortOrder)
              (Spec.matching searchQuery visitors).
Proof. apply sortBy_perm. Qed.

Lemma compareVisitors_tie sortOrder a b :
  checkInTime a = checkInTime b -> compareVisitors sortOrder a b <= 0.
Proof.
  intros H. unfold compareVisitors.
  destruct (String.eqb sortOrder "latest"), (String.eqb sortOrder "oldest"); lia.
Qed.

Lemma filteredVisitors_stable visitors searchQuery sortOrder t :
  Spec.checkedInAt t (filteredVisitors visitors searchQuery sortOrder) =
  Spec.checkedInAt t (Spec.matching searchQuery visitors).
Proof. apply (sortBy_stable _ checkInTime), compareVisitors_tie. Qed.

Lemma latest_descending visitors searchQuery :
  Spec.descending (filteredVisitors visitors searchQuery "latest").
Proof.
  apply sortBy_sorted; unfold compareVisitors; simpl; intros; lia.
Qed.

Lemma oldest_ascending visitors searchQuery :
  Spec.ascending (filteredVisitors visitors searchQuery "oldest").
Proof.
  apply sortBy_sorted; unfold compareVisitors; simpl; intros; lia.
Qed.

Lemma oldest_is_latest_reversed visitors searchQuery :
  NoDup (map checkInTime visitors) ->
  filteredVisitors visitors searchQuery "oldest" =
  rev (filteredVisitors visitors searchQuery "latest").
Proof.
  intros Hnd.
  apply (StronglySorted_unique_strong (fun a b => checkInTime a <= checkInTime b)).
  - intros a b Ha Hb Hab Hba.
    apply list_elem_of_In in Ha, Hb. apply In_rev in Hb.
    apply (Permutation_in _ (filteredVisitors_perm _ _ _)), matching_In in Ha, Hb.
    apply (NoDup_map_inj_on checkInTime visitors); [exact Hnd | tauto | tauto | lia].
  - apply oldest_ascending.
  - apply (StronglySorted_rev_flip (fun a b => checkInTime b <= checkInTime a)),
      latest_descending.
  - rewrite <- Permutation_rev, !filteredVisitors_perm. reflexivity.
Qed.

(** C3 (as the code has it).  Whatever the runtime's lower-casing is, the
    view holds exactly the records whose lower-cased name contains the
    lower-cased search text: the same records as the input restricted to
    them, as many times as they occur there.  As the empty text lowers to
    itself, the empty search text keeps every record; and as "John" lowers
    to "john" and "jo" to itself, the search text "jo" keeps every record
    named "John". *)
Theorem view_filters_by_lower_cased_name :
  forall (toLowerCase : string -> string)
         (visitors : list Visitor) (searchQuery sortOrder : string),
    (forall v,
        In v (filteredVisitorsWith toLowerCase visitors searchQuery sortOrder) <->
        In v visitors /\
        Spec.occursIn (toLowerCase searchQuery) (toLowerCase (name v)))
    /\ Permutation
         (filteredVisitorsWith toLowerCase visitors searchQuery sortOrder)
         (List.filter (matchesQueryWith toLowerCase searchQuery) visitors)
    /\ (toLowerCase "" = "" ->
        Permutation (filteredVisitorsWith toLowerCase visitors "" sortOrder) visitors)
    /\ (toLowerCase "John" = "john" -> toLowerCase "jo" = "jo" ->
        forall v, In v visitors -> name v = "John" ->
                  In v (filteredVisitorsWith toLowerCase visitors "jo" sortOrder)).
Proof.
  intros toLowerCase visitors searchQuery sortOrder.
  split; [intros v; apply filteredVisitorsWith_In |].
  split; [apply filteredVisitorsWith_perm |]. split.
  - intros Hempty. rewrite filteredVisitorsWith_perm.
    rewrite forallb_filter_id; [reflexivity |].
    apply forallb_forall. intros v _. unfold matchesQueryWith.
    rewrite Hempty. apply includes_empty.
  - intros HJohn Hjo v Hv Hname. apply filteredVisitorsWith_In.
    split; [exact Hv |]. rewrite Hname, HJohn, Hjo.
    now exists "", "hn".
Qed.

(** C4.  With sort order "latest" the view is ordered by check-in time,
    latest first, and with "oldest", oldest first; in both, records with
    the same check-in time keep the order they have in the input; and when
    the check-in times of the records are pairwise distinct, the "oldest"
    view is the "latest" view reversed. *)
Theorem view_sorts_by_check_in_time :
  forall (visitors : list Visitor) (searchQuery : string),
    Spec.descending (filteredVisitors visitors searchQuery "latest")
    /\ Spec.ascending (filteredVisitors visitors searchQuery "oldest")
    /\ Permutation (filteredVisitors visitors searchQuery "latest")
                   (Spec.matching searchQuery visitors)
    /\ Permutation (filteredVisitors visitors searchQuery "oldest")
                   (Spec.matching searchQuery visitors)
    /\ (forall t,
          Spec.checkedInAt t (filteredVisitors visitors searchQuery "latest") =
          Spec.checkedInAt t (Spec.matching searchQuery visitors))
    /\ (forall t,
          Spec.checkedInAt t (filteredVisitors visitors searchQuery "oldest") =
          Spec.checkedInAt t (Spec.matching searchQuery visitors))
    /\ (NoDup (map checkInTime visitors) ->
        filteredVisitors visitors searchQuery "oldest" =
        rev (filteredVisitors visitors searchQuery "latest")).
Proof.
  intros visitors searchQuery.
  split; [apply latest_descending |].
  split; [apply oldest_ascending |].
  split; [apply filteredVisitors_perm |].
  split; [apply filteredVisitors_perm |].
  split; [intros t; apply filteredVisitors_stable |].
  split; [intros t; apply filteredVisitors_stable |].
  apply oldest_is_latest_reversed.
Qed.

(** Among Jane, Bob and John, with the lower-casing of the Latin-1 range,
    the search text "jo" keeps John. *)
Lemma view_filters_by_lower_cased_name_witness :
  In Sample.john
     (filteredVisitorsWith Text.toLowerCase
        [Sample.janeOut; Sample.bob; Sample.john] "jo" "latest").
Proof.
  apply (proj2 (proj2 (proj2
           (view_filters_by_lower_cased_name Text.toLowerCase
              [Sample.janeOut; Sample.bob; Sample.john] "" "latest")))).
  - reflexivity.
  - reflexivity.
  - simpl. tauto.
  - reflexivity.
Defined.

(** C3, the claim as stated fails.  The name "AΣ" contains the search text
    "Σ" as it stands, so also up to case; but a capital sigma behind a
    letter lowers to a final sigma and one that stands alone to a plain
    sigma, and under every lower-casing that does so the record is not in
    the view. *)
Lemma final_sigma_hides_a_matching_name :
  Spec.occursIn "Σ" (name Sample.sigma) /\
  ~ exists toLowerCase : string -> string,
      toLowerCase "AΣ" = "aς" /\
      toLowerCase "Σ" = "σ" /\
      In Sample.sigma
         (filteredVisitorsWith toLowerCase [Sample.sigma] "Σ" "latest").
Proof.
  split; [now exists "A", "" |].
  intros (toLowerCase & HA & HS & Hin).
  apply filteredVisitorsWith_In in Hin as [_ Hocc].
  apply includes_occurs in Hocc. cbn [name Sample.sigma] in Hocc.
  rewrite HA, HS in Hocc. vm_compute in Hocc. discriminate Hocc.
Qed.

(** Jane (100), Bob (180) and John (300) were checked in at distinct
    times: oldest first is latest first, reversed. *)
Lemma view_sorts_by_check_in_time_witness :
  filteredVisitors [Sample.bob; Sample.john; Sample.janeOut] "" "oldest" =
  rev (filteredVisitors [Sample.bob; Sample.john; Sample.janeOut] "" "latest").
Proof.
  apply (proj2 (proj2 (proj2 (proj2 (proj2 (proj2
           (view_sorts_by_check_in_time
              [Sample.bob; Sample.john; Sample.janeOut] ""))))))).
  apply (bool_decide_unpack _). vm_compute. exact I.
Defined.

End QueryFacts.

(** ** The handlers, run symbolically *)

Section HandlerFacts.
Import Run.

Lemma checkOutVisitor_run id0 w :
  exists added w',
    App.checkOutVisitor id0 w = (Normal tt, w') /\
    trace w' = (trace w ++ added)%list /\
    now w' = now w /\ keyGenerator w <= keyGenerator w' /\
    ((Spec.calm 3 (rejections w) = false /\ In DbRejected added /\
      (forall l, ~ In (SetVisitors l) added) /\
      objects w' = objects w /\ visitors w' = visitors w)
     \/ (Db.stored w id0 = None /\ added = [DbOpen; DbGet id0] /\
         objects w' = objects w /\ visitors w' = visitors w)
     \/ (exists r, Db.stored w id0 = Some r /\
           let updated := Spec.checkedOutAt (now w) r in
           let replaced :=
             map (fun v => if App.hasId id0 v then updated else v) (visitors w) in
           added = [DbOpen; DbGet id0; DbPut id0; SetVisitors replaced] /\
           objects w' = <[id0 := updated]> (objects w) /\
           visitors w' = replaced)).
Proof.
  run_handler w.
  all: try (destruct (objs !! id0) as [r|] eqn:Es; split_promises).
  all: finish_run.
  all: split; [reflexivity | split; [lia |]].
  all: first
    [ left; split; [reflexivity |]; split; [simpl; tauto |];
      split; [no_such_effect |]; split; reflexivity
    | right; left; repeat split; reflexivity
    | right; right; eexists; split; [reflexivity |]; repeat split; reflexivity ].
Qed.

Lemma addVisitor_run visitor w :
  exists added w',
    App.addVisitor visitor w = (Normal tt, w') /\
    trace w' = (trace w ++ added)%list /\
    now w' = now w /\ keyGenerator w <= keyGenerator w' /\
    let key := keyGenerator w in
    let created :=
      mkVisitor (Some key) (AddVisitor.name visitor) (AddVisitor.purpose visitor)
                (AddVisitor.contact visitor) (now w) None in
    (objects w' = objects w \/
     objects w' = <[key := created]> (objects w) /\ keyGenerator w' = key + 1) /\
    ((Spec.calm 3 (rejections w) = false /\ In DbRejected added /\
      (forall l, ~ In (SetVisitors l) added) /\ visitors w' = visitors w)
     \/ (added = [DbOpen; DbAdd key; DbGet key;
                  SetVisitors (visitors w ++ [created]); SetIsModalOpen false] /\
         objects w' = <[key := created]> (objects w) /\
         visitors w' = (visitors w ++ [created])%list)).
Proof.
  run_handler w.
  all: finish_run.
  all: split; [reflexivity | split; [lia |]].
  all: split; [first [left; reflexivity | right; split; [reflexivity | lia]] |].
  all: first
    [ left; split; [reflexivity |]; split; [simpl; tauto |];
      split; [no_such_effect | reflexivity]
    | right; repeat split; reflexivity ].
Qed.

Lemma resetDatabase_run w :
  exists added w',
    App.resetDatabase w = (Normal tt, w') /\
    trace w' = (trace w ++ added)%list /\
    now w' = now w /\ keyGenerator w' = keyGenerator w /\
    ((Spec.calm 2 (rejections w) = false /\ In DbRejected added /\
      objects w' = objects w /\ visitors w' = visitors w)
     \/ (added = [DbOpen; DbClear; SetVisitors [];
                  ConsoleLog "Database reset successfully."] /\
         objects w' = ∅ /\ visitors w' = [])).
Proof.
  run_handler w.
  all: finish_run.
  all: split; [reflexivity | split; [reflexivity |]].
  all: first
    [ left; split; [reflexivity |]; split; [simpl; tauto |]; split; reflexivity
    | right; repeat split; reflexivity ].
Qed.

Lemma initDB_run w :
  exists w',
    App.initDB w = (Normal tt, w') /\
    now w' = now w /\ keyGenerator w' = keyGenerator w /\ objects w' = objects w /\
    (visitors w' = visitors w \/ visitors w' = Db.listAll w).
Proof.
  run_handler w.
  all: eexists; split; [reflexivity |]; repeat split; auto.
Qed.

End HandlerFacts.

(** ** The store as read by [get] *)

Section StoreFacts.

Lemma stored_id w k r : Db.stored w k = Some r -> id r = Some k.
Proof.
  unfold Db.stored. destruct (objects w !! k); [| discriminate].
  now intros [= <-].
Qed.

Lemma stored_same w w' k :
  objects w' = objects w -> Db.stored w' k = Db.stored w k.
Proof. unfold Db.stored. now intros ->. Qed.

Lemma stored_insert w w' key v k :
  objects w' = <[key := v]> (objects w) ->
  Db.stored w' k =
    if decide (key = k)
    then Some (mkVisitor (Some k) (name v) (purpose v) (contact v)
                         (checkInTime v) (checkOutTime v))
    else Db.stored w k.
Proof.
  unfold Db.stored. intros ->. rewrite lookup_insert.
  destruct (decide (key = k)); reflexivity.
Qed.

Lemma stored_checkedOutAt w w' k r t :
  Db.stored w k = Some r ->
  objects w' = <[k := Spec.checkedOutAt t r]> (objects w) ->
  Db.stored w' k = Some (Spec.checkedOutAt t r).
Proof.
  intros Hr Hobj. rewrite (stored_insert w w' k _ k Hobj).
  destruct (decide (k = k)) as [_ | []]; [| reflexivity].
  unfold Spec.checkedOutAt. cbn. now rewrite (stored_id _ _ _ Hr).
Qed.

Lemma stored_empty w k : objects w = ∅ -> Db.stored w k = None.
Proof. unfold Db.stored. intros ->. now rewrite lookup_empty. Qed.

Lemma listAll_empty w : objects w = ∅ -> Db.listAll w = [].
Proof. unfold Db.listAll. intros ->. now rewrite map_to_list_empty. Qed.

Lemma listAll_keys w :
  omap id (Db.listAll w) =
  map fst (Query.sortBy Db.byKey (map_to_list (objects w))).
Proof.
  unfold Db.listAll.
  assert (H : forall kv,
             In kv (Query.sortBy Db.byKey (map_to_list (objects w))) ->
             objects w !! fst kv = Some (snd kv)).
  { intros [k v] Hkv. apply sortBy_In, list_elem_of_In in Hkv.
    now apply elem_of_map_to_list in Hkv. }
  revert H. generalize (Query.sortBy Db.byKey (map_to_list (objects w))).
  induction l as [|[k v] l IH]; intros H; [reflexivity |].
  pose proof (H (k, v) (or_introl eq_refl)) as Hk. cbn [fst snd] in Hk.
  cbn [omap list_omap fst]. unfold Db.stored at 1.
  rewrite Hk. cbn. f_equal.
  apply IH. intros kv Hkv. apply H. now right.
Qed.

Lemma sorted_keys_strict (l : list (Z * Visitor)) :
  StronglySorted (fun a b => fst a <= fst b) l -> NoDup (map fst l) ->
  StronglySorted Z.lt (map fst l).
Proof.
  induction 1 as [|x l Hl IH Hx]; cbn; intros Hnd; [constructor |].
  apply NoDup_cons in Hnd as [Hnotin Hnd].
  constructor; [now apply IH |].
  apply List.Forall_forall. intros k Hk.
  apply in_map_iff in Hk as (y & <- & Hy).
  rewrite List.Forall_forall in Hx. specialize (Hx y Hy).
  assert (fst x <> fst y).
  { intros E. apply Hnotin. rewrite E. apply list_elem_of_In. now apply in_map. }
  lia.
Qed.

(** [getAll] lists the records by ascending key. *)
Lemma listAll_ascending w : StronglySorted Z.lt (omap id (Db.listAll w)).
Proof.
  rewrite listAll_keys. apply sorted_keys_strict.
  - apply (sortBy_sorted Db.byKey (fun a b => fst a <= fst b));
      unfold Db.byKey; intros; lia.
  - rewrite (Permutation_map fst (sortBy_perm Db.byKey _)).
    apply NoDup_fst_map_to_list.
Qed.

Lemma listAll_stored w v :
  In v (Db.listAll w) <-> exists k, Db.stored w k = Some v.
Proof.
  unfold Db.listAll. rewrite <- list_elem_of_In, list_elem_of_omap. split.
  - intros ([k r] & _ & Hv). now exists k.
  - intros (k & Hk). pose proof Hk as Hk'. unfold Db.stored in Hk'.
    destruct (objects w !! k) as [r|] eqn:E; [| discriminate].
    exists (k, r). split; [| exact Hk].
    apply list_elem_of_In, sortBy_In, list_elem_of_In.
    now apply elem_of_map_to_list.
Qed.

End StoreFacts.

(** ** Reset *)

Section ResetFacts.
Import Run.

(** C6.  When neither database call rejects, [resetDatabase] first clears
    the object store and then empties the in-memory set: afterwards the
    store lists no record, the in-memory set is empty, and so is the view
    computed from it. *)
Theorem reset_clears_store_then_memory :
  forall w : World,
    Spec.calm 2 (rejections w) = true ->
    exists w',
      App.resetDatabase w = (Normal tt, w') /\
      trace w' = (trace w ++ [DbOpen; DbClear; SetVisitors [];
                              ConsoleLog "Database reset successfully."])%list /\
      Db.listAll w' = [] /\
      visitors w' = [] /\
      App.filteredVisitors w' = [].
Proof.
  intros w Hcalm.
  destruct (resetDatabase_run w)
    as (added & w' & Hrun & Htrace & _ & _ & [(Hrej & _) | (-> & Hobj & Hvs)]).
  { congruence. }
  exists w'. split; [exact Hrun |]. split; [exact Htrace |].
  split; [now apply listAll_empty |]. split; [exact Hvs |].
  unfold App.filteredVisitors. now rewrite Hvs.
Qed.

Lemma reset_clears_store_then_memory_witness :
  exists w',
    App.resetDatabase Sample.searching = (Normal tt, w') /\
    trace w' = [DbOpen; DbClear; SetVisitors [];
                ConsoleLog "Database reset successfully."] /\
    Db.listAll w' = [] /\
    visitors w' = [] /\
    App.filteredVisitors w' = [].
Proof. exact (reset_clears_store_then_memory Sample.searching eq_refl). Defined.

End ResetFacts.

(** ** Check-in and check-out against the store *)

Section LifecycleFacts.
Import Run.

(** C7.  Whatever the database does, [addVisitor] and [checkOutVisitor]
    change the in-memory set only once the store write has resolved: either
    the set is left as it was and no [setVisitors] happened, or the
    effects of the call are, in this order, the resolved database calls
    and then the one [setVisitors]; and whenever a database promise
    rejects, the in-memory set is exactly what it was before the call. *)
Theorem memory_follows_the_store :
  forall w : World,
    (forall visitor, exists added w',
        App.addVisitor visitor w = (Normal tt, w') /\
        trace w' = (trace w ++ added)%list /\
        (In DbRejected added -> visitors w' = visitors w) /\
        ((visitors w' = visitors w /\ forall l, ~ In (SetVisitors l) added)
         \/ exists key created,
              added = [DbOpen; DbAdd key; DbGet key;
                       SetVisitors (visitors w ++ [created]);
                       SetIsModalOpen false] /\
              Db.stored w' key = Some created /\
              visitors w' = (visitors w ++ [created])%list))
    /\
    (forall id0, exists added w',
        App.checkOutVisitor id0 w = (Normal tt, w') /\
        trace w' = (trace w ++ added)%list /\
        (In DbRejected added -> visitors w' = visitors w) /\
        ((visitors w' = visitors w /\ forall l, ~ In (SetVisitors l) added)
         \/ exists updated,
              added = [DbOpen; DbGet id0; DbPut id0; SetVisitors (visitors w')] /\
              Db.stored w' id0 = Some updated /\
              visitors w' =
                map (fun v => if App.hasId id0 v then updated else v) (visitors w))).
Proof.
  intros w. split.
  - intros visitor.
    destruct (addVisitor_run visitor w)
      as (added & w' & Hrun & Htrace & _ & _ & _ &
          [(_ & _ & Hnone & Hvs) | (-> & Hobj & Hvs)]);
      do 2 eexists; (split; [exact Hrun |]); (split; [exact Htrace |]).
    + split; [intros _; exact Hvs | left; now split].
    + split.
      * simpl. intros [H | [H | [H | [H | [H | []]]]]]; discriminate H.
      * right. do 2 eexists. split; [reflexivity |]. split; [| exact Hvs].
        rewrite (stored_insert _ _ _ _ _ Hobj).
        destruct (decide (keyGenerator w = keyGenerator w)); [reflexivity | congruence].
  - intros id0.
    destruct (checkOutVisitor_run id0 w)
      as (added & w' & Hrun & Htrace & _ & _ &
          [(_ & _ & Hnone & _ & Hvs) | [(_ & -> & _ & Hvs) | (r & Hr & -> & Hobj & Hvs)]]);
      do 2 eexists; (split; [exact Hrun |]); (split; [exact Htrace |]).
    + split; [intros _; exact Hvs | left; now split].
    + split; [intros _; exact Hvs | left; split; [exact Hvs | no_such_effect]].
    + split.
      * simpl. intros [H | [H | [H | [H | []]]]]; discriminate H.
      * right. exists (Spec.checkedOutAt (now w) r).
        rewrite Hvs. split; [reflexivity |]. split; [| reflexivity].
        now apply (stored_checkedOutAt w).
Qed.



End LifecycleFacts.

(** ** Memory in step with the store, handler by handler *)

Section UiFacts.
Import Run.

Lemma view_subset w v : In v (App.filteredVisitors w) -> In v (visitors w).
Proof.
  unfold App.filteredVisitors. intros Hv.
  apply (Permutation_in _ (filteredVisitors_perm _ _ _)) in Hv.
  now apply matching_In in Hv.
Qed.

Lemma addVisitor_inStep visitor w :
  Spec.inStep w -> Spec.inStep (snd (App.addVisitor visitor w)).
Proof.
  intros [Hmem Hkeys].
  destruct (addVisitor_run visitor w)
    as (added & w' & -> & _ & _ & Hgen & Hobj &
        [(_ & _ & _ & Hvs) | (_ & Hobj' & Hvs)]); cbn [snd].
  - split.
    + intros v Hv. rewrite Hvs in Hv. destruct (Hmem v Hv) as (k & Hid & Hk).
      exists k. split; [exact Hid |]. destruct Hobj as [Hobj | [Hobj _]].
      * now rewrite (stored_same _ _ _ Hobj).
      * rewrite (stored_insert _ _ _ _ _ Hobj).
        destruct (decide (keyGenerator w = k)) as [<- | _]; [| exact Hk].
        apply Hkeys in Hk. lia.
    + intros k r Hr. destruct Hobj as [Hobj | [Hobj Hnext]].
      * rewrite (stored_same _ _ _ Hobj) in Hr. apply Hkeys in Hr. lia.
      * rewrite (stored_insert _ _ _ _ _ Hobj) in Hr.
        destruct (decide (keyGenerator w = k)) as [<- | _]; [lia |].
        apply Hkeys in Hr. lia.
  - destruct Hobj as [Hobj | [_ Hnext]].
    { exfalso. rewrite Hobj' in Hobj.
      assert (H : objects w !! keyGenerator w = None).
      { destruct (objects w !! keyGenerator w) eqn:E; [| reflexivity].
        assert (Hs : is_Some (Db.stored w (keyGenerator w)))
          by (unfold Db.stored; rewrite E; eauto).
        destruct Hs as [r Hr]. apply Hkeys in Hr. lia. }
      rewrite <- Hobj, lookup_insert_eq in H. discriminate. }
    split.
    + intros v Hv. rewrite Hvs in Hv. apply in_app_or in Hv as [Hv | [<- | []]].
      * destruct (Hmem v Hv) as (k & Hid & Hk). exists k. split; [exact Hid |].
        rewrite (stored_insert _ _ _ _ _ Hobj').
        destruct (decide (keyGenerator w = k)) as [<- | _]; [| exact Hk].
        apply Hkeys in Hk. lia.
      * exists (keyGenerator w). split; [reflexivity |].
        rewrite (stored_insert _ _ _ _ _ Hobj').
        destruct (decide (keyGenerator w = keyGenerator w)); [reflexivity | congruence].
    + intros k r Hr. rewrite (stored_insert _ _ _ _ _ Hobj') in Hr.
      destruct (decide (keyGenerator w = k)) as [<- | _]; [lia |].
      apply Hkeys in Hr. lia.
Qed.

Lemma checkOutVisitor_inStep id0 w :
  Spec.inStep w -> Spec.inStep (snd (App.checkOutVisitor id0 w)).
Proof.
  intros [Hmem Hkeys].
  destruct (checkOutVisitor_run id0 w)
    as (added & w' & -> & _ & _ & Hgen &
        [(_ & _ & _ & Hobj & Hvs) | [(_ & _ & Hobj & Hvs) | (r & Hr & _ & Hobj & Hvs)]]);
    cbn [snd].
  1, 2: split;
    [ intros v Hv; rewrite Hvs in Hv; destruct (Hmem v Hv) as (k & Hid & Hk);
      exists k; split; [exact Hid | now rewrite (stored_same _ _ _ Hobj)]
    | intros k r Hr; rewrite (stored_same _ _ _ Hobj) in Hr;
      apply Hkeys in Hr; lia ].
  split.
  - intros v Hv. rewrite Hvs in Hv. apply in_map_iff in Hv as (v0 & <- & Hv0).
    destruct (Hmem v0 Hv0) as (k & Hid & Hk).
    unfold App.hasId. rewrite Hid. destruct (Z.eqb_spec k id0) as [-> | Hne].
    + exists id0. split; [cbn; now apply (stored_id w) |].
      now apply (stored_checkedOutAt w).
    + exists k. split; [exact Hid |].
      rewrite (stored_insert _ _ _ _ _ Hobj).
      destruct (decide (id0 = k)); [congruence | exact Hk].
  - intros k r' Hr'. rewrite (stored_insert _ _ _ _ _ Hobj) in Hr'.
    destruct (decide (id0 = k)) as [<- | _].
    + apply Hkeys in Hr. lia.
    + apply Hkeys in Hr'. lia.
Qed.

Lemma resetDatabase_inStep w :
  Spec.inStep w -> Spec.inStep (snd (App.resetDatabase w)).
Proof.
  intros [Hmem Hkeys].
  destruct (resetDatabase_run w)
    as (added & w' & -> & _ & _ & Hgen & [(_ & _ & Hobj & Hvs) | (_ & Hobj & Hvs)]);
    cbn [snd]; split.
  - intros v Hv. rewrite Hvs in Hv. destruct (Hmem v Hv) as (k & Hid & Hk).
    exists k. split; [exact Hid | now rewrite (stored_same _ _ _ Hobj)].
  - intros k r Hr. rewrite (stored_same _ _ _ Hobj) in Hr. apply Hkeys in Hr. lia.
  - intros v Hv. now rewrite Hvs in Hv.
  - intros k r Hr. now rewrite (stored_empty _ _ Hobj) in Hr.
Qed.

Lemma initDB_inStep w :
  Spec.inStep w -> Spec.inStep (snd (App.initDB w)).
Proof.
  intros [Hmem Hkeys].
  destruct (initDB_run w) as (w' & -> & _ & Hgen & Hobj & Hvs). cbn [snd]. split.
  - intros v Hv. destruct Hvs as [Hvs | Hvs]; rewrite Hvs in Hv.
    + destruct (Hmem v Hv) as (k & Hid & Hk).
      exists k. split; [exact Hid | now rewrite (stored_same _ _ _ Hobj)].
    + destruct (proj1 (listAll_stored _ _) Hv) as (k & Hk).
      exists k. split; [now apply (stored_id w) | now rewrite (stored_same _ _ _ Hobj)].
  - intros k r Hr. rewrite (stored_same _ _ _ Hobj) in Hr. apply Hkeys in Hr. lia.
Qed.

End UiFacts.

(** ** Checking out twice *)

Section CheckOutFacts.
Import Run.


(** C1, the claim as stated fails: Jane was checked out at 250; a second
    [checkOutVisitor] at 900 completes normally and the stored check-out
    time is now 900. *)
Lemma second_checkOut_overwrites_the_first :
  checkOutTime <$> Db.stored Sample.janeCheckedOut 1 = Some (Some 250) /\
  fst (App.checkOutVisitor 1 Sample.janeCheckedOut) = Normal tt /\
  checkOutTime <$> Db.stored (snd (App.checkOutVisitor 1 Sample.janeCheckedOut)) 1
    = Some (Some 900) /\
  checkOutTime <$> visitors (snd (App.checkOutVisitor 1 Sample.janeCheckedOut))
    = [Some 900].
Proof. vm_compute. repeat split. Qed.

(** C1 (as the code has it).  [checkOutVisitor] does not look at
    [checkOutTime]: on the id of a record that is already checked out it
    completes normally and, when no database call rejects, replaces the
    stored check-out time by the current time.  What stands between a
    checked-out record and a second check-out is the table: for a record
    whose [checkOutTime] is non-null it renders the "Checked Out" label
    instead of the button, so a click in that cell calls no handler and
    changes nothing. *)
Theorem checkOut_again_overwrites_but_table_has_no_button :
  (forall (id0 : Z) (w : World) (r : Visitor) (t : Z),
      Spec.calm 3 (rejections w) = true ->
      Db.stored w id0 = Some r ->
      checkOutTime r = Some t ->
      exists w',
        App.checkOutVisitor id0 w = (Normal tt, w') /\
        Db.stored w' id0 = Some (Spec.checkedOutAt (now w) r))
  /\
  (forall (onCheckOut : Z -> Async unit) (v : Visitor) (w : World),
      checkOutTime v <> None ->
      Table.action v = Table.CheckedOut /\
      Table.click onCheckOut v w = (Normal tt, w)).
Proof.
  split.
  - intros id0 w r t Hcalm Hr _.
    destruct (checkOutVisitor_run id0 w)
      as (added & w' & Hrun & _ & _ & _ &
          [(Hrej & _) | [(Hnone & _) | (r' & Hr' & _ & Hobj & _)]]);
      [congruence | congruence |].
    assert (r' = r) as -> by congruence.
    exists w'. split; [exact Hrun |]. now apply (stored_checkedOutAt w).
  - intros onCheckOut v w Hout. unfold Table.click, Table.action.
    destruct (checkOutTime v); [now split | congruence].
Qed.

(** Jane, checked out at 250: a direct second call at 900 overwrites, and
    the table offers no button on her row, so that a click there changes
    nothing. *)
Lemma checkOut_again_overwrites_but_table_has_no_button_witness :
  (exists w',
      App.checkOutVisitor 1 Sample.janeCheckedOut = (Normal tt, w') /\
      Db.stored w' 1 = Some (Spec.checkedOutAt 900 Sample.janeOut))
  /\
  (Table.action Sample.janeOut = Table.CheckedOut /\
   Table.click App.checkOutVisitor Sample.janeOut Sample.janeCheckedOut =
     (Normal tt, Sample.janeCheckedOut)).
Proof.
  split.
  - apply (proj1 checkOut_again_overwrites_but_table_has_no_button
             1 Sample.janeCheckedOut Sample.janeOut 250);
      vm_compute; reflexivity.
  - apply (proj2 checkOut_again_overwrites_but_table_has_no_button).
    discriminate.
Defined.

End CheckOutFacts.

(** ** The times of a record *)

Section TimeFacts.
Import Run.

(** C9, the claim as stated fails.  Both times are readings of the host's
    clock, and nothing compares them: Jane is checked in at 100, the clock
    is set back to 50, and the check-out stores 50 as her check-out time,
    which is earlier than her check-in time. *)
Lemma clock_set_back_checks_out_before_check_in :
  Db.stored Sample.clockSetBack 1 = Some Sample.janeIn /\
  fst (App.checkOutVisitor 1 Sample.clockSetBack) = Normal tt /\
  exists r,
    Db.stored (snd (App.checkOutVisitor 1 Sample.clockSetBack)) 1 = Some r /\
    checkInTime r = 100 /\
    checkOutTime r = Some 50 /\
    ~ (checkInTime r <= 50).
Proof.
  split; [vm_compute; reflexivity |]. split; [vm_compute; reflexivity |].
  exists (Spec.checkedOutAt 50 Sample.janeIn).
  split; [vm_compute; reflexivity |]. split; [reflexivity |].
  split; [reflexivity |]. cbn. lia.
Qed.

(** C9 (as the code has it).  A record created by [addVisitor] starts with
    [checkOutTime] null and its [checkInTime] is the clock reading of the
    call.  For a stored record that is checked in, when no database call
    rejects, [checkOutVisitor] followed by [get] yields the record with the
    same [checkInTime] and with the clock reading of the call as its
    non-null [checkOutTime]; so the check-out time is not earlier than the
    check-in time exactly when the clock reading at the check-out is not
    earlier than the stored check-in time.  [checkOutVisitor] never changes
    the [checkInTime] of a stored record, whatever the database does. *)
Theorem checkOut_time_is_the_clock_reading :
  (forall (visitor : AddVisitor.Fields) (w : World) (k : Z) (r : Visitor),
      Db.stored w k = None ->
      Db.stored (snd (App.addVisitor visitor w)) k = Some r ->
      checkOutTime r = None /\ checkInTime r = now w)
  /\
  (forall (w : World) (r : Visitor) (k : Z),
      Spec.calm 3 (rejections w) = true ->
      Db.stored w k = Some r ->
      checkOutTime r = None ->
      exists r',
        Db.stored (snd (App.checkOutVisitor k w)) k = Some r' /\
        checkOutTime r' = Some (now w) /\
        checkInTime r' = checkInTime r /\
        (forall t, checkOutTime r' = Some t ->
                   (checkInTime r' <= t <-> checkInTime r <= now w)))
  /\
  (forall (w : World) (id0 k : Z) (r r' : Visitor),
      Db.stored w k = Some r ->
      Db.stored (snd (App.checkOutVisitor id0 w)) k = Some r' ->
      checkInTime r' = checkInTime r).
Proof.
  split; [| split].
  - intros visitor w k r Hnone Hr.
    destruct (addVisitor_run visitor w)
      as (added & w' & Hrun & _ & _ & _ & [Hobj | (Hobj & _)] & _);
      rewrite Hrun in Hr; cbn [snd] in Hr.
    + rewrite (stored_same _ _ _ Hobj) in Hr. congruence.
    + rewrite (stored_insert _ _ _ _ _ Hobj) in Hr.
      destruct (decide (keyGenerator w = k)); [| congruence].
      injection Hr as <-. now split.
  - intros w r k Hcalm Hr Hin.
    destruct (checkOutVisitor_run k w)
      as (added & w' & -> & _ & _ & _ &
          [(Hrej & _) | [(Hnone & _) | (r' & Hr' & _ & Hobj & _)]]);
      [congruence | congruence |].
    assert (r' = r) as -> by congruence. cbn [snd].
    exists (Spec.checkedOutAt (now w) r).
    split; [now apply (stored_checkedOutAt w) |]. cbn.
    split; [reflexivity |]. split; [reflexivity |].
    intros t [= <-]. tauto.
  - intros w id0 k r r' Hr Hr'.
    destruct (checkOutVisitor_run id0 w)
      as (added & w' & Hrun & _ & _ & _ &
          [(_ & _ & _ & Hobj & _) | [(_ & _ & Hobj & _) | (r0 & Hr0 & _ & Hobj & _)]]);
      rewrite Hrun in Hr'; cbn [snd] in Hr'.
    + rewrite (stored_same _ _ _ Hobj) in Hr'. congruence.
    + rewrite (stored_same _ _ _ Hobj) in Hr'. congruence.
    + rewrite (stored_insert _ _ _ _ _ Hobj) in Hr'.
      destruct (decide (id0 = k)) as [<- | Hne]; [| congruence].
      injection Hr' as <-. cbn. congruence.
Qed.

(** Jane, checked in at 100, is checked out with the clock at 250: the
    stored record keeps 100 and gets 250. *)
Lemma checkOut_time_is_the_clock_reading_witness :
  exists r',
    Db.stored (snd (App.checkOutVisitor 1 Sample.janeCheckedIn)) 1 = Some r' /\
    checkOutTime r' = Some (now Sample.janeCheckedIn) /\
    checkInTime r' = checkInTime Sample.janeIn /\
    (forall t, checkOutTime r' = Some t ->
               (checkInTime r' <= t <->
                checkInTime Sample.janeIn <= now Sample.janeCheckedIn)).
Proof.
  apply (proj1 (proj2 checkOut_time_is_the_clock_reading)
           Sample.janeCheckedIn Sample.janeIn 1).
  - reflexivity.
  - vm_compute. reflexivity.
  - reflexivity.
Defined.

End TimeFacts.

(** ** Export *)

Section ExportFacts.
Variable toLocaleString : Z -> string.

Lemma tableRows_from rows visitors :
  fold_left (fun rows visitor => (rows ++ [Pdf.row toLocaleString visitor])%list)
            visitors rows
  = (rows ++ map (Pdf.row toLocaleString) visitors)%list.
Proof.
  revert rows. induction visitors as [|v visitors IH]; intros rows; simpl.
  - now rewrite app_nil_r.
  - now rewrite IH, <- app_assoc.
Qed.

Lemma tableRows_map visitors :
  Pdf.tableRows toLocaleString visitors = map (Pdf.row toLocaleString) visitors.
Proof. apply (tableRows_from []). Qed.

(** C2 (as the code has it).  [exportAsPDF] renders the whole in-memory
    record set in its stored order, whatever the search text and the sort
    order are: the document saved as visitor-list.pdf has the title, the
    head row Name, Purpose, Contact, Check-In, Check-Out, and one body row
    per record, whose last cell is "N/A" when [checkOutTime] is null. *)
Theorem export_renders_the_whole_record_set :
  forall w : World,
    Pdf.fileName (Pdf.exportAsPDF toLocaleString w) = "visitor-list.pdf" /\
    Pdf.title (Pdf.exportAsPDF toLocaleString w) = "Visitor List" /\
    Pdf.head (Pdf.exportAsPDF toLocaleString w) =
      [["Name"; "Purpose"; "Contact"; "Check-In"; "Check-Out"]] /\
    Pdf.body (Pdf.exportAsPDF toLocaleString w) =
      map (fun v => [name v; purpose v; contact v;
                     toLocaleString (checkInTime v);
                     match checkOutTime v with
                     | Some t => toLocaleString t
                     | None => "N/A"
                     end])
          (visitors w) /\
    (forall w', visitors w' = visitors w ->
       Pdf.exportAsPDF toLocaleString w' = Pdf.exportAsPDF toLocaleString w).
Proof.
  intros w. repeat split.
  - cbn. apply tableRows_map.
  - intros w' Hvs. unfold Pdf.exportAsPDF. now rewrite Hvs.
Qed.

End ExportFacts.

(** C2, the claim as stated fails: with Jane and Bob in memory and "bob" in
    the search box the view shows Bob alone, while the export has a row for
    Jane and a row for Bob. *)
Lemma export_is_not_the_filtered_view :
  ~ (forall (toLocaleString : Z -> string) (w : World),
       Pdf.body (Pdf.exportAsPDF toLocaleString w) =
       map (Pdf.row toLocaleString) (App.filteredVisitors w)).
Proof.
  intros H. specialize (H (fun _ => "") Sample.searching).
  vm_compute in H. discriminate H.
Qed.

(** ** The view does not touch the array it reads *)

Section ArrayFacts.

(** Sorting an array reorders the array itself. *)
Lemma sort_in_place cmp ref h :
  let '(ref', h') := Arrays.sort cmp ref h in
  ref' = ref /\ Arrays.contents h' ref = Query.sortBy cmp (Arrays.contents h ref).
Proof.
  unfold Arrays.sort, Arrays.contents. split; [reflexivity |].
  now rewrite lookup_insert_eq.
Qed.

(** C10.  Computing the view leaves the [visitors] array as it is: the
    filter step allocates a new array, the sort reorders that new array in
    place, and the array read from -- like every other array that existed
    before -- holds the same elements in the same order afterwards. *)
Theorem view_leaves_visitors_untouched :
  forall (h : gmap positive (list Visitor)) (ref : positive)
         (searchQuery sortOrder : string),
    is_Some (h !! ref) ->
    exists view h',
      Arrays.filteredVisitors ref searchQuery sortOrder h = (view, h') /\
      view <> ref /\
      h' !! ref = h !! ref /\
      (forall other, is_Some (h !! other) -> h' !! other = h !! other) /\
      h' !! view =
        Some (Query.filteredVisitors (Arrays.contents h ref) searchQuery sortOrder).
Proof.
  intros h ref searchQuery sortOrder Href.
  unfold Arrays.filteredVisitors, Arrays.filter, Arrays.alloc, Arrays.sort.
  set (view := fresh (dom h)).
  assert (Hfresh : forall other, is_Some (h !! other) -> view <> other).
  { intros other Hother Heq. apply (is_fresh (dom h)). fold view.
    rewrite Heq. now apply elem_of_dom. }
  exists view, (<[view := Query.sortBy (Query.compareVisitors sortOrder)
                          (Arrays.contents (<[view :=
                             List.filter (Query.matchesQuery searchQuery)
                                         (Arrays.contents h ref)]> h) view)]>
                 (<[view := List.filter (Query.matchesQuery searchQuery)
                                        (Arrays.contents h ref)]> h)).
  assert (Hkeep : forall other a b, is_Some (h !! other) ->
            <[view := a]> (<[view := b]> h) !! other = h !! other).
  { intros other a b Hother.
    rewrite lookup_insert_ne; [| now apply Hfresh].
    rewrite lookup_insert_ne; [reflexivity | now apply Hfresh]. }
  split; [reflexivity |]. split; [now apply Hfresh |].
  split; [now apply Hkeep |]. split.
  - intros other Hother. now apply Hkeep.
  - rewrite lookup_insert_eq. unfold Arrays.contents at 1.
    now rewrite lookup_insert_eq.
Qed.

Lemma view_leaves_visitors_untouched_witness :
  exists view h',
    Arrays.filteredVisitors 1%positive "" "latest"
      {[ 1%positive := [Sample.janeOut; Sample.bob] ]} = (view, h') /\
    view <> 1%positive /\
    h' !! 1%positive =
      ({[ 1%positive := [Sample.janeOut; Sample.bob] ]} : gmap positive (list Visitor))
        !! 1%positive /\
    (forall other,
        is_Some (({[ 1%positive := [Sample.janeOut; Sample.bob] ]}
                   : gmap positive (list Visitor)) !! other) ->
        h' !! other =
          ({[ 1%positive := [Sample.janeOut; Sample.bob] ]}
             : gmap positive (list Visitor)) !! other) /\
    h' !! view =
      Some (Query.filteredVisitors
              (Arrays.contents {[ 1%positive := [Sample.janeOut; Sample.bob] ]} 1%positive)
              "" "latest").
Proof.
  apply (view_leaves_visitors_untouched
           {[ 1%positive := [Sample.janeOut; Sample.bob] ]} 1%positive "" "latest").
  vm_compute. eauto.
Defined.

End ArrayFacts.

(** ** The check-in form *)

Section FormFacts.
Import AddVisitor.

Lemma truthy_false s : Text.truthy s = false <-> s = "".
Proof. destruct s; simpl; split; congruence. Qed.

(** [validateForm] accepts exactly the states with a non-blank name, a
    non-empty purpose and a non-blank contact. *)
Lemma validateForm_accepts s :
  fst (validateForm s) =
    Text.truthy (Text.trim (name (visitorData s))) &&
    Text.truthy (purpose (visitorData s)) &&
    Text.truthy (Text.trim (contact (visitorData s))).
Proof.
  unfold validateForm.
  destruct (Text.truthy (Text.trim (name (visitorData s))));
    destruct (Text.truthy (purpose (visitorData s)));
    destruct (Text.truthy (Text.trim (contact (visitorData s)))); reflexivity.
Qed.

Lemma validateForm_errors s :
  let s' := snd (validateForm s) in
  visitorData s' = visitorData s /\
  (Text.trim (name (visitorData s)) = "" ->
     name (errors s') = "Name is required") /\
  (purpose (visitorData s) = "" ->
     purpose (errors s') = "Purpose is required") /\
  (Text.trim (contact (visitorData s)) = "" ->
     contact (errors s') = "Contact information is required").
Proof.
  unfold validateForm.
  destruct (Text.truthy (Text.trim (name (visitorData s)))) eqn:En;
    destruct (Text.truthy (purpose (visitorData s))) eqn:Ep;
    destruct (Text.truthy (Text.trim (contact (visitorData s)))) eqn:Ec;
    cbn; repeat split; intros H; rewrite H in *; try discriminate; reflexivity.
Qed.

(** The four shapes of a change event. *)
Lemma key_cases (key : string) :
  key = "name" \/ key = "purpose" \/ key = "contact" \/
  (String.eqb key "name" = false /\ String.eqb key "purpose" = false /\
   String.eqb key "contact" = false).
Proof.
  destruct (String.eqb_spec key "name"); [now left |].
  destruct (String.eqb_spec key "purpose"); [now right; left |].
  destruct (String.eqb_spec key "contact"); [now right; right; left |].
  now right; right; right.
Qed.

Lemma handleChange_contact s key value :
  Text.allDigits (contact (visitorData s)) = true ->
  Text.allDigits (contact (visitorData (handleChange s key value))) = true.
Proof.
  intros Hs. unfold handleChange, setField.
  destruct (key_cases key) as [-> | [-> | [-> | (E1 & E2 & E3)]]];
    try rewrite E1, E2, E3; cbn; try exact Hs.
  destruct (Text.allDigits value) eqn:Hv; cbn; [exact Hv | exact Hs].
Qed.

Lemma handleChange_purpose s key value :
  (key = "purpose" -> In value purposes) ->
  purpose (visitorData s) = "" \/ In (purpose (visitorData s)) purposes ->
  purpose (visitorData (handleChange s key value)) = "" \/
  In (purpose (visitorData (handleChange s key value))) purposes.
Proof.
  intros Hev Hs. unfold handleChange, setField.
  destruct (key_cases key) as [-> | [-> | [-> | (E1 & E2 & E3)]]];
    try rewrite E1, E2, E3; cbn -[purposes]; try exact Hs.
  - right. now apply Hev.
  - destruct (Text.allDigits value); cbn -[purposes]; exact Hs.
Qed.

Lemma changes_contact events : forall s,
  Text.allDigits (contact (visitorData s)) = true ->
  Text.allDigits (contact (visitorData (changes s events))) = true.
Proof.
  induction events as [|ev events IH]; intros s Hs; [exact Hs |].
  apply IH. now apply handleChange_contact.
Qed.

Lemma changes_purpose events : forall s,
  Forall fromControls events ->
  purpose (visitorData s) = "" \/ In (purpose (visitorData s)) purposes ->
  purpose (visitorData (changes s events)) = "" \/
  In (purpose (visitorData (changes s events))) purposes.
Proof.
  induction events as [|ev events IH]; intros s Hev Hs; [exact Hs |].
  apply Forall_cons in Hev as [Hev Hevs].
  apply IH; [exact Hevs |]. now apply handleChange_purpose.
Qed.

Lemma trim_digits s : Text.allDigits s = true -> Text.trim s = "" -> s = "".
Proof.
  destruct s as [|c s]; [reflexivity |]. cbn [Text.allDigits].
  intros [Hc _]%andb_true_iff. unfold Text.trim. cbn [Text.trimStart].
  assert (Hsp : Text.isSpace c = false).
  { unfold Text.isDigit in Hc. unfold Text.isSpace.
    destruct (N_of_ascii c) as [|p]; [discriminate |].
    apply andb_true_iff in Hc as [H1 H2].
    apply N.leb_le in H1, H2.
    repeat match goal with
           | |- context [N.leb ?a ?b] => destruct (N.leb_spec a b); try lia
           | |- context [N.eqb ?a ?b] => destruct (N.eqb_spec a b); try lia
           end; reflexivity. }
  rewrite Hsp. cbn [Text.trimEnd]. rewrite Hsp.
  destruct (Text.trimEnd s); discriminate.
Qed.

End FormFacts.

(** * Further properties of the handlers *)

Section MountFacts.
Import Run.

Lemma initDB_calm w :
  Spec.calm 2 (rejections w) = true ->
  exists w',
    App.initDB w = (Normal tt, w') /\
    objects w' = objects w /\ keyGenerator w' = keyGenerator w /\
    visitors w' = Db.listAll w /\
    rejections w' = skipn 2 (rejections w).
Proof.
  run_handler w; intros Hcalm; try discriminate Hcalm.
  all: eexists; split; [reflexivity |]; repeat split; reflexivity.
Qed.

(** X1.  Mounting always ends the loading state, whatever the database
    does, and never writes to the store.  When both database calls resolve
    the in-memory set becomes the list that [getAll] returns; when one
    rejects the in-memory set stays as it was and the failure is logged.
    The list that [getAll] returns holds exactly the stored records, by
    strictly ascending id. *)
Theorem mount_always_ends_loading :
  forall w : World,
    (exists added w',
        App.initDB w = (Normal tt, w') /\
        trace w' = (trace w ++ added)%list /\
        isLoading w' = false /\
        objects w' = objects w /\
        ((Spec.calm 2 (rejections w) = true /\
          visitors w' = Db.listAll w /\
          added = [DbOpen; DbGetAll; SetVisitors (Db.listAll w); SetIsLoading false])
         \/
         (Spec.calm 2 (rejections w) = false /\
          visitors w' = visitors w /\
          In DbRejected added /\
          In (ConsoleError "Failed to initialize database:") added /\
          forall l, ~ In (SetVisitors l) added)))
    /\
    (forall v, In v (Db.listAll w) <-> exists k, Db.stored w k = Some v)
    /\
    StronglySorted Z.lt (omap id (Db.listAll w)).
Proof.
  intros w.
  split; [| split; [intros v; apply listAll_stored | apply listAll_ascending]].
  run_handler w.
  all: finish_run.
  all: split; [reflexivity | split; [reflexivity |]].
  all: first
    [ left; split; [reflexivity |]; split; reflexivity
    | right; split; [reflexivity |]; split; [reflexivity |];
      split; [simpl; tauto |]; split; [simpl; tauto | no_such_effect] ].
Qed.

(** X2.  When a database call of a reset rejects, nothing is reset: the
    store and the in-memory set are what they were, the failure is logged
    and the success message is not. *)
Theorem failed_reset_changes_nothing :
  forall w : World,
    Spec.calm 2 (rejections w) = false ->
    exists added w',
      App.resetDatabase w = (Normal tt, w') /\
      trace w' = (trace w ++ added)%list /\
      objects w' = objects w /\
      visitors w' = visitors w /\
      In (ConsoleError "Failed to reset database:") added /\
      ~ In (ConsoleLog "Database reset successfully.") added /\
      ~ In DbClear added.
Proof.
  intros w. run_handler w; intros Hcalm; try discriminate Hcalm.
  all: finish_run.
  all: repeat split; try reflexivity; simpl; try tauto;
    intros H; repeat (destruct H as [H | H]; [discriminate H |]); exact H.
Qed.

Lemma failed_reset_changes_nothing_witness :
  exists added w',
    App.resetDatabase (withRejections [false; true] Sample.searching) = (Normal tt, w') /\
    trace w' = added /\
    objects w' = objects Sample.searching /\
    visitors w' = [Sample.janeOut; Sample.bob] /\
    In (ConsoleError "Failed to reset database:") added /\
    ~ In (ConsoleLog "Database reset successfully.") added /\
    ~ In DbClear added.
Proof.
  exact (failed_reset_changes_nothing
           (withRejections [false; true] Sample.searching) eq_refl).
Defined.

(** X3.  No handler lets an exception escape: each of the four completes
    normally in every world, and it logs its own error message exactly when
    one of its database promises rejected. *)
Theorem handlers_never_throw :
  forall w : World,
    (exists added w',
        App.initDB w = (Normal tt, w') /\ trace w' = (trace w ++ added)%list /\
        (In DbRejected added <->
         In (ConsoleError "Failed to initialize database:") added))
    /\
    (exists added w',
        App.resetDatabase w = (Normal tt, w') /\ trace w' = (trace w ++ added)%list /\
        (In DbRejected added <->
         In (ConsoleError "Failed to reset database:") added))
    /\
    (forall visitor, exists added w',
        App.addVisitor visitor w = (Normal tt, w') /\
        trace w' = (trace w ++ added)%list /\
        (In DbRejected added <->
         In (ConsoleError "Failed to add visitor:") added))
    /\
    (forall id0, exists added w',
        App.checkOutVisitor id0 w = (Normal tt, w') /\
        trace w' = (trace w ++ added)%list /\
        (In DbRejected added <->
         In (ConsoleError "Failed to check out visitor:") added)).
Proof.
  intros w. split; [| split; [| split]].
  - run_handler w. all: finish_run. all: in_effects.
  - run_handler w. all: finish_run. all: in_effects.
  - intros visitor. run_handler w. all: finish_run. all: in_effects.
  - intros id0. run_handler w.
    all: try (destruct (objs !! id0) as [r|] eqn:Es; split_promises).
    all: finish_run. all: in_effects.
Qed.

End MountFacts.

Section CheckInFacts.
Import Run.

Lemma addVisitor_calm visitor w :
  Spec.calm 3 (rejections w) = true ->
  exists w',
    App.addVisitor visitor w = (Normal tt, w') /\
    objects w' = <[keyGenerator w := Spec.created visitor w]> (objects w) /\
    keyGenerator w' = keyGenerator w + 1 /\
    visitors w' = (visitors w ++ [Spec.created visitor w])%list /\
    isModalOpen w' = false /\
    now w' = now w /\
    rejections w' = skipn 3 (rejections w).
Proof.
  run_handler w; intros Hcalm; try discriminate Hcalm.
  all: eexists; split; [reflexivity |]; simpl_world.
  all: repeat split; try reflexivity; lia.
Qed.

Lemma unused_key w :
  Spec.inStep w ->
  Db.stored w (keyGenerator w) = None /\
  forall v, In v (visitors w) -> id v <> Some (keyGenerator w).
Proof.
  intros [Hmem Hkeys]. split.
  - destruct (Db.stored w (keyGenerator w)) eqn:E; [| reflexivity].
    apply Hkeys in E. lia.
  - intros v Hv Hid. destruct (Hmem v Hv) as (k & Hk & Hs).
    assert (k = keyGenerator w) as -> by congruence.
    apply Hkeys in Hs. lia.
Qed.

(** X4.  A check-in whose database calls all resolve appends exactly one
    record to the in-memory set: it carries the form's three fields, the
    current time as check-in time and no check-out time; its id is the
    generator's next key, which no stored record and no in-memory record
    uses; the same record is what the store returns under that id; and the
    form is closed. *)
Theorem checkIn_appends_a_fresh_record :
  forall (visitor : AddVisitor.Fields) (w : World),
    Spec.calm 3 (rejections w) = true ->
    Spec.inStep w ->
    exists w',
      App.addVisitor visitor w = (Normal tt, w') /\
      visitors w' =
        (visitors w ++
         [mkVisitor (Some (keyGenerator w)) (AddVisitor.name visitor)
                    (AddVisitor.purpose visitor) (AddVisitor.contact visitor)
                    (now w) None])%list /\
      Db.stored w' (keyGenerator w) = nth_error (visitors w') (length (visitors w)) /\
      Db.stored w (keyGenerator w) = None /\
      (forall v, In v (visitors w) -> id v <> Some (keyGenerator w)) /\
      (forall k, k <> keyGenerator w -> Db.stored w' k = Db.stored w k) /\
      isModalOpen w' = false.
Proof.
  intros visitor w Hcalm Hw.
  destruct (addVisitor_calm visitor w Hcalm)
    as (w' & Hrun & Hobj & _ & Hvs & Hmodal & _).
  destruct (unused_key w Hw) as [Hnone Hids].
  exists w'. split; [exact Hrun |]. split; [exact Hvs |].
  split.
  { rewrite Hvs, nth_error_app2, Nat.sub_diag by lia. cbn.
    rewrite (stored_insert _ _ _ _ _ Hobj).
    destruct (decide (keyGenerator w = keyGenerator w)); [reflexivity | congruence]. }
  split; [exact Hnone |]. split; [exact Hids |]. split; [| exact Hmodal].
  intros k Hk. rewrite (stored_insert _ _ _ _ _ Hobj).
  destruct (decide (keyGenerator w = k)); [congruence | reflexivity].
Qed.

Lemma checkIn_appends_a_fresh_record_witness :
  exists w',
    App.addVisitor Sample.jane Sample.fresh = (Normal tt, w') /\
    visitors w' = [Sample.janeIn] /\
    Db.stored w' 1 = nth_error (visitors w') 0 /\
    Db.stored Sample.fresh 1 = None /\
    (forall v, In v (visitors Sample.fresh) -> id v <> Some 1) /\
    (forall k, k <> 1 -> Db.stored w' k = Db.stored Sample.fresh k) /\
    isModalOpen w' = false.
Proof.
  apply (checkIn_appends_a_fresh_record Sample.jane Sample.fresh eq_refl).
  split.
  - intros v [].
  - intros k r Hr. now rewrite stored_empty in Hr.
Defined.

(** X5.  When [db.add] resolves and the [db.get] after it rejects, the
    record is in the store but not in memory, and the form stays open as
    it was; the record comes into memory with the next mount whose database
    calls resolve. *)
Theorem stored_but_not_shown_until_mount :
  forall (visitor : AddVisitor.Fields) (w : World) (rest : list bool),
    rejections w = false :: false :: true :: rest ->
    Db.stored (snd (App.addVisitor visitor w)) (keyGenerator w)
      = Some (Spec.created visitor w) /\
    visitors (snd (App.addVisitor visitor w)) = visitors w /\
    isModalOpen (snd (App.addVisitor visitor w)) = isModalOpen w /\
    In (ConsoleError "Failed to add visitor:")
       (trace (snd (App.addVisitor visitor w))) /\
    (Spec.calm 2 rest = true ->
     In (Spec.created visitor w)
        (visitors (snd (App.initDB (snd (App.addVisitor visitor w)))))).
Proof.
  intros visitor w rest Hrej.
  assert (Hadd : exists w',
             App.addVisitor visitor w = (Normal tt, w') /\
             objects w' = <[keyGenerator w := Spec.created visitor w]> (objects w) /\
             visitors w' = visitors w /\ isModalOpen w' = isModalOpen w /\
             rejections w' = rest /\
             In (ConsoleError "Failed to add visitor:") (trace w')).
  { unfold_handlers. unfold Db.stored, Db.storeValue, Db.keyFor.
    destruct w as [objs gen rej t vs loading modal query order tr].
    cbn in Hrej. subst rej. simpl_world.
    eexists. split; [reflexivity |]. simpl_world.
    repeat split. apply in_or_app. right. now left. }
  destruct Hadd as (w' & -> & Hobj & Hvs & Hmodal & Hrest & Hlog). cbn [snd].
  assert (Hstored : Db.stored w' (keyGenerator w) = Some (Spec.created visitor w)).
  { rewrite (stored_insert _ _ _ _ _ Hobj).
    destruct (decide (keyGenerator w = keyGenerator w)); [reflexivity | congruence]. }
  split; [exact Hstored |]. split; [exact Hvs |]. split; [exact Hmodal |].
  split; [exact Hlog |].
  intros Hcalm.
  rewrite <- Hrest in Hcalm.
  destruct (initDB_calm w' Hcalm) as (w'' & Hmount & _ & _ & Hall & _).
  rewrite Hmount. cbn [snd]. rewrite Hall.
  apply listAll_stored. now exists (keyGenerator w).
Qed.

Lemma stored_but_not_shown_until_mount_witness :
  Db.stored (snd (App.addVisitor Sample.jane
                    (withRejections [false; false; true] Sample.fresh))) 1
    = Some Sample.janeIn /\
  visitors (snd (App.addVisitor Sample.jane
                   (withRejections [false; false; true] Sample.fresh))) = [] /\
  isModalOpen (snd (App.addVisitor Sample.jane
                      (withRejections [false; false; true] Sample.fresh))) = true /\
  In (ConsoleError "Failed to add visitor:")
     (trace (snd (App.addVisitor Sample.jane
                    (withRejections [false; false; true] Sample.fresh)))) /\
  (Spec.calm 2 [] = true ->
   In Sample.janeIn
      (visitors (snd (App.initDB (snd (App.addVisitor Sample.jane
                    (withRejections [false; false; true] Sample.fresh))))))).
Proof.
  exact (stored_but_not_shown_until_mount Sample.jane
           (withRejections [false; false; true] Sample.fresh) [] eq_refl).
Defined.

End CheckInFacts.

Section CheckOutFrame.
Import Run.

Lemma replace_ids id0 updated l :
  id updated = Some id0 ->
  map id (map (fun v => if App.hasId id0 v then updated else v) l) = map id l.
Proof.
  intros Hid. rewrite map_map. apply map_ext. intros v. unfold App.hasId.
  destruct (id v) as [i|] eqn:Hv; [| now rewrite Hv].
  destruct (Z.eqb_spec i id0) as [-> | _]; [exact Hid | exact Hv].
Qed.

Lemma replace_other id0 updated l n v :
  nth_error l n = Some v -> id v <> Some id0 ->
  nth_error (map (fun v => if App.hasId id0 v then updated else v) l) n = Some v.
Proof.
  intros Hn Hid. rewrite nth_error_map, Hn. cbn. unfold App.hasId.
  destruct (id v) as [i|]; [| reflexivity].
  destruct (Z.eqb_spec i id0) as [-> | _]; [congruence | reflexivity].
Qed.

Lemma checkOutVisitor_ids id0 w :
  map id (visitors (snd (App.checkOutVisitor id0 w))) = map id (visitors w).
Proof.
  destruct (checkOutVisitor_run id0 w)
    as (added & w' & -> & _ & _ & _ &
        [(_ & _ & _ & _ & Hvs) | [(_ & _ & _ & Hvs) | (r & Hr & _ & _ & Hvs)]]);
    cbn [snd]; rewrite Hvs; [reflexivity | reflexivity |].
  apply replace_ids. cbn. now apply (stored_id w).
Qed.

(** X6.  Whatever the database does, a check-out of one id touches nothing
    else: every record stored under another id is returned as before; the
    in-memory list keeps its length, its order and the id at every
    position, and every entry with another id is the same entry; and the
    record under that id, if it is still stored, differs from what it was
    at most in its check-out time. *)
Theorem checkOut_touches_one_record :
  forall (id0 : Z) (w : World),
    (forall k, k <> id0 ->
       Db.stored (snd (App.checkOutVisitor id0 w)) k = Db.stored w k)
    /\ map id (visitors (snd (App.checkOutVisitor id0 w))) = map id (visitors w)
    /\ (forall n v, nth_error (visitors w) n = Some v -> id v <> Some id0 ->
          nth_error (visitors (snd (App.checkOutVisitor id0 w))) n = Some v)
    /\ (forall r r',
          Db.stored w id0 = Some r ->
          Db.stored (snd (App.checkOutVisitor id0 w)) id0 = Some r' ->
          r' = r \/ exists t, r' = Spec.checkedOutAt t r).
Proof.
  intros id0 w.
  destruct (checkOutVisitor_run id0 w)
    as (added & w' & -> & _ & _ & _ &
        [(_ & _ & _ & Hobj & Hvs) | [(_ & _ & Hobj & Hvs) | (r & Hr & _ & Hobj & Hvs)]]);
    cbn [snd].
  1, 2: split; [intros k _; now apply stored_same |];
        split; [now rewrite Hvs |];
        split; [intros n v Hn _; now rewrite Hvs |];
        intros r0 r' H0 H'; rewrite (stored_same _ _ _ Hobj) in H'; left; congruence.
  split.
  { intros k Hk. rewrite (stored_insert _ _ _ _ _ Hobj).
    destruct (decide (id0 = k)); [congruence | reflexivity]. }
  split.
  { rewrite Hvs. apply replace_ids. cbn. now apply (stored_id w). }
  split.
  { intros n v Hn Hid. rewrite Hvs. now apply replace_other. }
  intros r0 r' H0 H'. right. exists (now w).
  rewrite (stored_checkedOutAt w w' id0 r (now w) Hr Hobj) in H'. congruence.
Qed.

(** X7.  A click on the Check Out button of a row of the view, with the
    in-memory set in step with the store and no database call rejecting,
    checks that record out at the current time, in the store and in memory:
    afterwards every row of the view that carries its id is that updated
    record and shows the "Checked Out" label instead of a button. *)
Theorem click_checks_the_row_out :
  forall (w : World) (row : nat) (v : Visitor) (k : Z),
    Spec.inStep w ->
    Spec.calm 3 (rejections w) = true ->
    nth_error (App.filteredVisitors w) row = Some v ->
    checkOutTime v = None ->
    id v = Some k -> k <> 0 ->
    Db.stored (Ui.handle w (Ui.Click row)) k = Some (Spec.checkedOutAt (now w) v) /\
    In (Spec.checkedOutAt (now w) v) (visitors (Ui.handle w (Ui.Click row))) /\
    (forall v', In v' (App.filteredVisitors (Ui.handle w (Ui.Click row))) ->
       id v' = Some k ->
       v' = Spec.checkedOutAt (now w) v /\ Table.action v' = Table.CheckedOut).
Proof.
  intros w row v k Hw Hcalm Hrow Hin Hid Hk0.
  assert (Hv : In v (visitors w)) by (apply nth_error_In in Hrow; now apply view_subset).
  assert (Hs : Db.stored w k = Some v).
  { destruct Hw as [Hmem _]. destruct (Hmem v Hv) as (k' & Hk' & Hs). congruence. }
  assert (Hstep : Ui.handle w (Ui.Click row) = snd (App.checkOutVisitor k w)).
  { cbn [Ui.handle]. rewrite Hrow. unfold Table.click, Table.action, Table.onClick.
    rewrite Hin, Hid. destruct (Z.eqb_spec k 0); [congruence | reflexivity]. }
  rewrite Hstep.
  destruct (checkOutVisitor_run k w)
    as (added & w' & -> & _ & _ & _ &
        [(Hrej & _) | [(Hnone & _) | (r & Hr & _ & Hobj & Hvs)]]);
    [congruence | congruence |].
  assert (r = v) as -> by congruence. cbn [snd]. cbn zeta in Hvs.
  split; [now apply (stored_checkedOutAt w) |].
  split.
  { rewrite Hvs. apply in_map_iff. exists v. split; [| exact Hv].
    unfold App.hasId. rewrite Hid, Z.eqb_refl. reflexivity. }
  intros v' Hv' Hid'. apply view_subset in Hv'. rewrite Hvs in Hv'.
  apply in_map_iff in Hv' as (v0 & Hv0 & _).
  unfold App.hasId in Hv0. destruct (id v0) as [i|] eqn:Hi.
  - destruct (Z.eqb_spec i k) as [-> | Hne].
    + subst v'. split; reflexivity.
    + subst v'. congruence.
  - subst v'. congruence.
Qed.

Lemma click_checks_the_row_out_witness :
  Db.stored (Ui.handle Sample.janeCheckedIn (Ui.Click 0)) 1
    = Some (Spec.checkedOutAt 250 Sample.janeIn) /\
  In (Spec.checkedOutAt 250 Sample.janeIn)
     (visitors (Ui.handle Sample.janeCheckedIn (Ui.Click 0))) /\
  (forall v', In v' (App.filteredVisitors (Ui.handle Sample.janeCheckedIn (Ui.Click 0))) ->
     id v' = Some 1 ->
     v' = Spec.checkedOutAt 250 Sample.janeIn /\ Table.action v' = Table.CheckedOut).
Proof.
  apply (click_checks_the_row_out Sample.janeCheckedIn 0 Sample.janeIn 1).
  - split.
    + intros v [<- | []]. exists 1. split; reflexivity.
    + intros k r Hr. unfold Db.stored in Hr. cbn in Hr.
      destruct (decide (k = 1)) as [-> | Hne]; [reflexivity |].
      rewrite lookup_singleton_ne in Hr by congruence. discriminate.
  - reflexivity.
  - reflexivity.
  - reflexivity.
  - reflexivity.
  - discriminate.
Defined.

End CheckOutFrame.

(** * Further properties of the view *)

Section ViewFacts.
Import Query.

(** X8.  A sort order other than "latest" and "oldest" sorts nothing: the
    view is the matching records in the order they have in memory. *)
Theorem other_sort_order_keeps_the_order :
  forall (visitors : list Visitor) (searchQuery sortOrder : string),
    sortOrder <> "latest" -> sortOrder <> "oldest" ->
    filteredVisitors visitors searchQuery sortOrder
      = List.filter (matchesQuery searchQuery) visitors.
Proof.
  intros visitors searchQuery sortOrder Hl Ho. unfold filteredVisitors.
  apply sortBy_no_swap. intros a b. unfold compareVisitors.
  destruct (String.eqb_spec sortOrder "latest"); [congruence |].
  destruct (String.eqb_spec sortOrder "oldest"); [congruence | lia].
Qed.

Lemma other_sort_order_keeps_the_order_witness :
  filteredVisitors [Sample.bob; Sample.john; Sample.janeOut] "o" "none"
    = List.filter (matchesQuery "o") [Sample.bob; Sample.john; Sample.janeOut].
Proof.
  apply other_sort_order_keeps_the_order; discriminate.
Defined.

(** X9.  Refining the search text narrows the view.  Whatever the
    runtime's lower-casing is: when the lower-cased earlier text occurs in
    the lower-cased later one, every record shown for the later text is
    shown for the earlier one, whatever the sort orders are. *)
Theorem longer_search_text_narrows_the_view :
  forall (toLowerCase : string -> string) (visitors : list Visitor)
         (earlier later sortOrder sortOrder' : string) (v : Visitor),
    Spec.occursIn (toLowerCase earlier) (toLowerCase later) ->
    In v (filteredVisitorsWith toLowerCase visitors later sortOrder) ->
    In v (filteredVisitorsWith toLowerCase visitors earlier sortOrder').
Proof.
  intros toLowerCase visitors earlier later sortOrder sortOrder' v Hsub Hv.
  apply filteredVisitorsWith_In in Hv as [Hv Hocc].
  apply filteredVisitorsWith_In. split; [exact Hv |].
  now apply (occursIn_trans _ (toLowerCase later)).
Qed.

Lemma longer_search_text_narrows_the_view_witness :
  In Sample.john
     (filteredVisitorsWith Text.toLowerCase
        [Sample.janeOut; Sample.bob; Sample.john] "jo" "oldest").
Proof.
  apply (longer_search_text_narrows_the_view Text.toLowerCase _
           "jo" "JOH" "latest" "oldest").
  - now exists "", "h".
  - vm_compute. tauto.
Defined.

End ViewFacts.

(** * Further properties of the export and the table *)

Section RenderFacts.
Import Run.
Variable toLocaleString : Z -> string.

(** X13.  The export follows the lifecycle.  When no database call
    rejects, a check-in adds one row at the end of the exported table, with
    the form's fields, the time of the call and "N/A"; and a check-out
    turns every row of that id into the record's row with the time of the
    call in the last cell, leaving the other rows as they were. *)
Theorem export_follows_the_lifecycle :
  forall w : World,
    Spec.calm 3 (rejections w) = true ->
    (forall visitor,
        Pdf.body (Pdf.exportAsPDF toLocaleString (snd (App.addVisitor visitor w))) =
          (Pdf.body (Pdf.exportAsPDF toLocaleString w) ++
           [[AddVisitor.name visitor; AddVisitor.purpose visitor;
             AddVisitor.contact visitor; toLocaleString (now w); "N/A"]])%list)
    /\
    (forall id0 r,
        Db.stored w id0 = Some r ->
        Pdf.body (Pdf.exportAsPDF toLocaleString (snd (App.checkOutVisitor id0 w))) =
          map (fun v =>
                 if App.hasId id0 v
                 then [name r; purpose r; contact r;
                       toLocaleString (checkInTime r); toLocaleString (now w)]
                 else Pdf.row toLocaleString v)
              (visitors w)).
Proof.
  intros w Hcalm. split.
  - intros visitor.
    destruct (addVisitor_calm visitor w Hcalm) as (w' & -> & _ & _ & Hvs & _).
    cbn [snd Pdf.exportAsPDF Pdf.body]. rewrite !tableRows_map, Hvs, map_app.
    reflexivity.
  - intros id0 r Hr.
    destruct (checkOutVisitor_run id0 w)
      as (added & w' & -> & _ & _ & _ &
          [(Hrej & _) | [(Hnone & _) | (r' & Hr' & _ & _ & Hvs)]]);
      [congruence | congruence |].
    assert (r' = r) as -> by congruence.
    cbn [snd Pdf.exportAsPDF Pdf.body]. rewrite tableRows_map, Hvs, map_map.
    apply map_ext. intros v. destruct (App.hasId id0 v); reflexivity.
Qed.

(** X14.  The table and the export show the same five values for a
    record, except for a missing check-out time, which the table shows as
    "-" and the export as "N/A". *)
Theorem table_and_export_show_the_same_cells :
  forall v : Visitor,
    firstn 4 (Table.cells toLocaleString v) = firstn 4 (Pdf.row toLocaleString v) /\
    length (Table.cells toLocaleString v) = length Pdf.tableColumn /\
    length (Pdf.row toLocaleString v) = length Pdf.tableColumn /\
    (checkOutTime v <> None ->
       Table.cells toLocaleString v = Pdf.row toLocaleString v) /\
    (checkOutTime v = None ->
       nth 4 (Table.cells toLocaleString v) "" = "-" /\
       nth 4 (Pdf.row toLocaleString v) "" = "N/A").
Proof.
  intros v. unfold Table.cells, Pdf.row, Table.formatDate.
  destruct (checkOutTime v); repeat split; try reflexivity; congruence.
Qed.

(** X15.  The table shows its one-cell "No visitors registered yet." row
    exactly when no in-memory record matches the search text -- be it that
    memory is empty or that the search excludes every record.  A record
    matches when its lower-cased name contains the lower-cased search
    text, whatever the runtime's lower-casing is. *)
Theorem placeholder_row_when_nothing_matches :
  forall (toLowerCase : string -> string) (w : World),
    Table.tbody toLocaleString
      (Query.filteredVisitorsWith toLowerCase
         (visitors w) (searchQuery w) (sortOrder w))
      = [Table.NoVisitors 6 "No visitors registered yet."]
    <->
    (forall v, In v (visitors w) ->
       ~ Spec.occursIn (toLowerCase (searchQuery w)) (toLowerCase (name v))).
Proof.
  intros toLowerCase w. split.
  - intros Hbody v Hv Hmatch.
    assert (Hin : In v (Query.filteredVisitorsWith toLowerCase
                          (visitors w) (searchQuery w) (sortOrder w)))
      by now apply filteredVisitorsWith_In.
    destruct (Query.filteredVisitorsWith toLowerCase
                (visitors w) (searchQuery w) (sortOrder w))
      as [|x [|y l]]; [exact Hin | discriminate Hbody | discriminate Hbody].
  - intros Hnone.
    destruct (Query.filteredVisitorsWith toLowerCase
                (visitors w) (searchQuery w) (sortOrder w))
      as [|x l] eqn:E; [reflexivity |].
    exfalso.
    assert (Hx : In x (Query.filteredVisitorsWith toLowerCase
                         (visitors w) (searchQuery w) (sortOrder w)))
      by (rewrite E; now left).
    apply filteredVisitorsWith_In in Hx as [Hx Hocc].
    now apply (Hnone x).
Qed.

End RenderFacts.

Lemma export_follows_the_lifecycle_witness :
  (forall visitor,
      Pdf.body (Pdf.exportAsPDF Sample.someLocale
                  (snd (App.addVisitor visitor Sample.janeCheckedIn))) =
        (Pdf.body (Pdf.exportAsPDF Sample.someLocale Sample.janeCheckedIn) ++
         [[AddVisitor.name visitor; AddVisitor.purpose visitor;
           AddVisitor.contact visitor; Sample.someLocale 250; "N/A"]])%list)
  /\
  (forall id0 r,
      Db.stored Sample.janeCheckedIn id0 = Some r ->
      Pdf.body (Pdf.exportAsPDF Sample.someLocale
                  (snd (App.checkOutVisitor id0 Sample.janeCheckedIn))) =
        map (fun v =>
               if App.hasId id0 v
               then [name r; purpose r; contact r;
                     Sample.someLocale (checkInTime r); Sample.someLocale 250]
               else Pdf.row Sample.someLocale v)
            [Sample.janeIn]).
Proof.
  exact (export_follows_the_lifecycle Sample.someLocale Sample.janeCheckedIn eq_refl).
Defined.

(** * Further properties of the form *)

Section FormSessionFacts.
Import AddVisitor.

(** X16.  A change that is let in -- any value for the name or the
    purpose, a value of digits for the contact -- becomes the value of that
    field and clears the error shown under it; the other two fields and
    their errors stay as they were. *)
Theorem accepted_change_sets_one_field :
  forall (s : State) (key value : string),
    In key ["name"; "purpose"; "contact"] ->
    (key = "contact" -> Text.allDigits value = true) ->
    getField (visitorData (handleChange s key value)) key = value /\
    getField (errors (handleChange s key value)) key = "" /\
    (forall other, other <> key ->
       getField (visitorData (handleChange s key value)) other
         = getField (visitorData s) other /\
       getField (errors (handleChange s key value)) other
         = getField (errors s) other).
Proof.
  intros s key value Hkey Hdigits. unfold handleChange.
  assert (Hgo : (String.eqb key "contact" && negb (Text.allDigits value)) = false).
  { destruct (String.eqb_spec key "contact") as [E | _]; [| reflexivity].
    now rewrite (Hdigits E). }
  rewrite Hgo. cbn [visitorData errors].
  destruct s as [[n p c] [en ep ec]]. cbn [visitorData errors].
  destruct Hkey as [<- | [<- | [<- | []]]]; cbn.
  - split; [reflexivity |]. split; [now destruct en |].
    intros other Hother. unfold getField, setField. cbn.
    destruct (String.eqb_spec other "name"); [congruence |].
    destruct en; cbn; split; reflexivity.
  - split; [reflexivity |]. split; [now destruct ep |].
    intros other Hother. unfold getField, setField. cbn.
    destruct (String.eqb_spec other "name"); [destruct ep; split; reflexivity |].
    destruct (String.eqb_spec other "purpose"); [congruence |].
    destruct ep; cbn; split; reflexivity.
  - split; [reflexivity |]. split; [now destruct ec |].
    intros other Hother. unfold getField, setField. cbn.
    destruct (String.eqb_spec other "name"); [destruct ec; split; reflexivity |].
    destruct (String.eqb_spec other "purpose"); [destruct ec; split; reflexivity |].
    destruct (String.eqb_spec other "contact"); [congruence |].
    destruct ec; cbn; split; reflexivity.
Qed.

Lemma accepted_change_sets_one_field_witness :
  getField (visitorData (handleChange (snd (validateForm initial)) "contact" "555"))
           "contact" = "555" /\
  getField (errors (handleChange (snd (validateForm initial)) "contact" "555"))
           "contact" = "" /\
  (forall other, other <> "contact" ->
     getField (visitorData (handleChange (snd (validateForm initial)) "contact" "555"))
              other
       = getField (visitorData (snd (validateForm initial))) other /\
     getField (errors (handleChange (snd (validateForm initial)) "contact" "555")) other
       = getField (errors (snd (validateForm initial))) other).
Proof.
  apply accepted_change_sets_one_field.
  - simpl. tauto.
  - reflexivity.
Defined.

(** X17.  Submitting twice stores once: after a submission that
    validates, the callback has been called once with the data and the
    fields are blank, so submitting again without typing fails on all
    three fields and calls nothing. *)
Theorem second_submit_in_a_row_is_rejected :
  forall (W : Type) (onSubmit : Fields -> W -> W) (s : State) (w : W),
    fst (validateForm s) = true ->
    snd (handleSubmit onSubmit s w) = onSubmit (visitorData s) w /\
    visitorData (fst (handleSubmit onSubmit s w)) = blank /\
    handleSubmit onSubmit (fst (handleSubmit onSubmit s w))
                 (snd (handleSubmit onSubmit s w))
    = (mkState blank
               (mkFields "Name is required" "Purpose is required"
                         "Contact information is required"),
       onSubmit (visitorData s) w).
Proof.
  intros W onSubmit s w Hvalid. unfold handleSubmit at 1 2 4 5.
  destruct (validateForm s) as [isValid s'] eqn:E. cbn in Hvalid. subst isValid.
  cbn [fst snd]. repeat split.
Qed.

Lemma second_submit_in_a_row_is_rejected_witness :
  snd (handleSubmit App.onSubmit (mkState Sample.jane blank) Sample.fresh)
    = App.onSubmit Sample.jane Sample.fresh /\
  visitorData (fst (handleSubmit App.onSubmit (mkState Sample.jane blank) Sample.fresh))
    = blank /\
  handleSubmit App.onSubmit
    (fst (handleSubmit App.onSubmit (mkState Sample.jane blank) Sample.fresh))
    (snd (handleSubmit App.onSubmit (mkState Sample.jane blank) Sample.fresh))
  = (mkState blank
             (mkFields "Name is required" "Purpose is required"
                       "Contact information is required"),
     App.onSubmit Sample.jane Sample.fresh).
Proof.
  exact (second_submit_in_a_row_is_rejected World App.onSubmit
           (mkState Sample.jane blank) Sample.fresh eq_refl).
Defined.

Lemma handleChange_invariant s key value :
  Text.allDigits (contact (visitorData s)) = true ->
  Spec.errorsOnlyOnBlank s ->
  Spec.errorsOnlyOnBlank (handleChange s key value).
Proof.
  intros Hd (Hn & Hp & Hc). unfold handleChange.
  destruct (String.eqb key "contact" && negb (Text.allDigits value)) eqn:Hdrop;
    [now repeat split |].
  destruct s as [[n p c] [en ep ec]]. unfold Spec.errorsOnlyOnBlank in *.
  cbn [visitorData errors name purpose contact] in *.
  destruct (key_cases key) as [-> | [-> | [-> | (E1 & E2 & E3)]]];
    unfold getField, setField; try rewrite E1, E2, E3; cbn.
  - destruct en; cbn; repeat split; auto; congruence.
  - destruct ep; cbn; repeat split; auto; congruence.
  - destruct ec; cbn; repeat split; auto; congruence.
  - repeat split; auto.
Qed.

Lemma validateForm_invariant s :
  Text.allDigits (contact (visitorData s)) = true ->
  Spec.errorsOnlyOnBlank s ->
  Spec.errorsOnlyOnBlank (snd (validateForm s)).
Proof.
  intros Hd (Hn & Hp & Hc). unfold validateForm.
  destruct s as [[n p c] [en ep ec]]. unfold Spec.errorsOnlyOnBlank in *.
  cbn [visitorData errors name purpose contact] in *.
  destruct (Text.truthy (Text.trim n)) eqn:En;
    destruct (Text.truthy p) eqn:Ep;
    destruct (Text.truthy (Text.trim c)) eqn:Ec; cbn;
    repeat split; auto; intros _;
    try (now apply truthy_false);
    apply (trim_digits c Hd); now apply truthy_false.
Qed.

Lemma validateForm_acceptable s :
  Text.allDigits (contact (visitorData s)) = true ->
  fst (validateForm s) = true -> Spec.acceptable (visitorData s).
Proof.
  intros Hd Hv. rewrite validateForm_accepts in Hv.
  apply andb_true_iff in Hv as [[Hn Hp]%andb_true_iff Hc].
  repeat split; [| | | exact Hd]; intros E; rewrite E in *; discriminate.
Qed.

Lemma step_invariant st i :
  Spec.formInvariant st -> Spec.formInvariant (FormSession.step st i).
Proof.
  intros (Hd & He & Hlog). destruct st as [s log]. cbn [fst snd] in *.
  destruct i as [key value | ]; cbn [FormSession.step fst snd].
  - split; [now apply handleChange_contact |].
    split; [now apply handleChange_invariant | exact Hlog].
  - pose proof (validateForm_invariant s Hd He) as He'.
    pose proof (validateForm_acceptable s Hd) as Hacc.
    destruct (validateForm_errors s) as (Hdata & _).
    unfold handleSubmit. destruct (validateForm s) as [[] s'];
      unfold Spec.formInvariant; cbn [fst snd] in *.
    + split; [reflexivity |]. split; [repeat split; intros _; reflexivity |].
      unfold FormSession.handedOver. apply Forall_app. split; [exact Hlog |].
      constructor; [now apply Hacc | constructor].
    + rewrite Hdata. split; [exact Hd | split; [exact He' | exact Hlog]].
Qed.

Lemma run_invariant inputs : Spec.formInvariant (FormSession.run inputs).
Proof.
  unfold FormSession.run.
  assert (H0 : Spec.formInvariant (initial, [])).
  { split; [reflexivity |]. split; [| constructor].
    repeat split; cbn; congruence. }
  revert H0. generalize (initial, @nil Fields).
  induction inputs as [|i inputs IH]; intros st Hst; [exact Hst |].
  cbn. apply IH. now apply step_invariant.
Qed.

(** X18.  However the form is used -- any sequence of change events and
    submissions from its initial state -- everything it hands to
    [onSubmit] has a non-blank name, a non-empty purpose and a non-empty
    contact made of digits only. *)
Theorem form_hands_over_only_filled_in_data :
  forall (inputs : list FormSession.Input) (visitor : Fields),
    In visitor (snd (FormSession.run inputs)) ->
    Text.trim (name visitor) <> "" /\
    purpose visitor <> "" /\
    contact visitor <> "" /\
    Text.allDigits (contact visitor) = true.
Proof.
  intros inputs visitor Hin.
  destruct (run_invariant inputs) as (_ & _ & Hlog).
  rewrite List.Forall_forall in Hlog. exact (Hlog visitor Hin).
Qed.

Lemma form_hands_over_only_filled_in_data_witness :
  Text.trim "Jane Doe" <> "" /\
  "Interview" <> "" /\
  "5551234" <> "" /\
  Text.allDigits "5551234" = true.
Proof.
  apply (form_hands_over_only_filled_in_data
           [FormSession.Submit;
            FormSession.Change "name" "Jane Doe";
            FormSession.Change "contact" "555-1234";
            FormSession.Change "contact" "5551234";
            FormSession.Change "purpose" "Interview";
            FormSession.Submit]
           Sample.jane).
  vm_compute. tauto.
Defined.

(** X19.  However the form is used, an error message stands only under a
    field that is blank: under the name only while the name is empty or
    white space, under the purpose and the contact only while they are
    empty. *)
Theorem form_errors_only_under_blank_fields :
  forall inputs : list FormSession.Input,
    (name (errors (fst (FormSession.run inputs))) <> "" ->
       Text.trim (name (visitorData (fst (FormSession.run inputs)))) = "") /\
    (purpose (errors (fst (FormSession.run inputs))) <> "" ->
       purpose (visitorData (fst (FormSession.run inputs))) = "") /\
    (contact (errors (fst (FormSession.run inputs))) <> "" ->
       contact (visitorData (fst (FormSession.run inputs))) = "").
Proof.
  intros inputs. destruct (run_invariant inputs) as (_ & He & _). exact He.
Qed.

End FormSessionFacts.

(** ** Submitting the form *)

Section SubmitFacts.
Import AddVisitor.






End SubmitFacts.
